(* Verification model of the phishing-analysis edge functions of secure-grid-ai:
   the logo heuristic and the URL analyzer of
   supabase/functions/analyze-logo/index.ts, and the scoring and combination
   stage of the email analyzer.

   Numbers: a JavaScript double is a finite value (a rational that the
   arithmetic rounds to the nearest double, ties to even), an infinity or
   NaN; the sign of zero is not kept.  The integer counts and rule scores of
   the code are computed exactly, as doubles hold them exactly.  Strings are
   ASCII byte strings, so String.length is the JavaScript length. *)

From Stdlib Require Import String Ascii List Bool ZArith QArith Qround Qpower Lia Lqa.
Import ListNotations.
Open Scope string_scope.

(* ------------------------------------------------------------------------- *)
(** * Strings *)

Module Str.

Definition chars (s : string) : list ascii := list_ascii_of_string s.

Definition is_upper (c : ascii) : bool :=
  let n := nat_of_ascii c in ((65 <=? n) && (n <=? 90))%nat.
Definition is_lower (c : ascii) : bool :=
  let n := nat_of_ascii c in ((97 <=? n) && (n <=? 122))%nat.
Definition is_digit (c : ascii) : bool :=
  let n := nat_of_ascii c in ((48 <=? n) && (n <=? 57))%nat.
Definition is_hex (c : ascii) : bool :=
  let n := nat_of_ascii c in
  (is_digit c || ((65 <=? n) && (n <=? 70)) || ((97 <=? n) && (n <=? 102)))%nat.
Definition is_letter (c : ascii) : bool := is_upper c || is_lower c.

(** [String.prototype.toLowerCase] on ASCII. *)
Definition lower_char (c : ascii) : ascii :=
  if is_upper c then ascii_of_nat (nat_of_ascii c + 32)%nat else c.
Definition to_lower (s : string) : string :=
  string_of_list_ascii (map lower_char (chars s)).

Fixpoint prefixb (p s : list ascii) : bool :=
  match p, s with
  | [], _ => true
  | a :: p', b :: s' => Ascii.eqb a b && prefixb p' s'
  | _ :: _, [] => false
  end.

Fixpoint infixb (p s : list ascii) : bool :=
  match s with
  | [] => prefixb p []
  | _ :: s' => prefixb p s || infixb p s'
  end.

(** [hay.includes(needle)], [s.startsWith(p)], [s.endsWith(p)]. *)
Definition includes (hay needle : string) : bool := infixb (chars needle) (chars hay).
Definition starts_with (s p : string) : bool := prefixb (chars p) (chars s).
Definition ends_with (s p : string) : bool := prefixb (rev (chars p)) (rev (chars s)).

(** Number of matches of a one-character regular expression with the [g] flag. *)
Definition count (f : ascii -> bool) (s : string) : nat :=
  length (filter f (chars s)).

(** [s.split(sep).length] for a one-character separator. *)
Definition split_length (sep : ascii) (s : string) : nat :=
  S (count (fun c => Ascii.eqb c sep) s).

End Str.

(* ------------------------------------------------------------------------- *)
(** * JavaScript numbers *)

(** A double: a finite value, an infinity ([JInf true] is -Infinity) or NaN. *)
Inductive jsnum := JFin (q : Q) | JInf (negative : bool) | JNaN.

(** IEEE 754 binary64 rounding of an exact value: 53 significant bits, the
    smallest quantum 2^-1074, and overflow to an infinity from 2^1024 on. *)
Module Double.

Definition pow2 (k : Z) : Q := Qpower (2 # 1) k.

(** [floor (log2 x)] for [x > 0]. *)
Definition exponent (x : Q) : Z :=
  let e := (Z.log2 (Qnum x) - Z.log2 (Zpos (Qden x)))%Z in
  if Qle_bool (pow2 e) x then e else (e - 1)%Z.

(** The integer nearest to [t], ties to even. *)
Definition rne (t : Q) : Z :=
  let f := Qfloor t in
  match Qcompare (t - inject_Z f) (1 # 2) with
  | Lt => f
  | Gt => (f + 1)%Z
  | Eq => if Z.even f then f else (f + 1)%Z
  end.

(** The spacing of the doubles around [x > 0], as a power of two. *)
Definition quantum (x : Q) : Z := Z.max (exponent x - 52) (-1074).

Definition round_pos (x : Q) : Q :=
  Qred (inject_Z (rne (x / pow2 (quantum x))) * pow2 (quantum x)).

Definition overflow : Q := pow2 1024.

(** The double nearest to [x]. *)
Definition of_Q (x : Q) : jsnum :=
  match Qcompare x 0 with
  | Gt => let r := round_pos x in if Qle_bool overflow r then JInf false else JFin r
  | Lt => let r := round_pos (- x) in if Qle_bool overflow r then JInf true else JFin (- r)
  | Eq => JFin 0
  end.

(** The numeric order on doubles, as a proposition (NaN is unordered). *)
Definition leq (a b : jsnum) : Prop :=
  match a, b with
  | JFin x, JFin y => x <= y
  | JInf true, (JFin _ | JInf _) => True
  | (JFin _ | JInf _), JInf false => True
  | _, _ => False
  end.

End Double.

#[global] Opaque Double.of_Q.

Module Num.

Definition neg (a : jsnum) : jsnum :=
  match a with JFin x => JFin (- x) | JInf n => JInf (negb n) | JNaN => JNaN end.

(** Double addition, subtraction, multiplication and division: the exact
    result rounded, with the IEEE rules for infinities and NaN. *)
Definition add (a b : jsnum) : jsnum :=
  match a, b with
  | JFin x, JFin y => Double.of_Q (x + y)
  | JInf n, JInf m => if Bool.eqb n m then JInf n else JNaN
  | JInf n, JFin _ | JFin _, JInf n => JInf n
  | _, _ => JNaN
  end.
Definition sub (a b : jsnum) : jsnum := add a (neg b).
Definition mul (a b : jsnum) : jsnum :=
  match a, b with
  | JFin x, JFin y => Double.of_Q (x * y)
  | JInf n, JInf m => JInf (xorb n m)
  | JInf n, JFin y | JFin y, JInf n =>
      if Qeq_bool y 0 then JNaN else JInf (xorb n (negb (Qle_bool 0 y)))
  | _, _ => JNaN
  end.
Definition div (a b : jsnum) : jsnum :=
  match a, b with
  | JFin x, JFin y =>
      if Qeq_bool y 0 then (if Qeq_bool x 0 then JNaN else JInf (negb (Qle_bool 0 x)))
      else Double.of_Q (x / y)
  | JFin _, JInf _ => JFin 0
  | JInf n, JFin y => JInf (xorb n (negb (Qle_bool 0 y)))
  | _, _ => JNaN
  end.
(** [a <= b] on numbers that are not NaN. *)
Definition leb (a b : jsnum) : bool :=
  match a, b with
  | JFin x, JFin y => Qle_bool x y
  | JInf true, (JFin _ | JInf _) => true
  | (JFin _ | JInf _), JInf false => true
  | _, _ => false
  end.
Definition is_nan (a : jsnum) : bool := match a with JNaN => true | _ => false end.
(** [a >= b] and [a > b]: false when either side is NaN. *)
Definition ge (a b : jsnum) : bool := leb b a.
Definition gt (a b : jsnum) : bool := negb (is_nan a || is_nan b || leb a b).
(** [Math.max], [Math.min]: NaN when either side is NaN. *)
Definition max (a b : jsnum) : jsnum :=
  if is_nan a || is_nan b then JNaN else if leb a b then b else a.
Definition min (a b : jsnum) : jsnum :=
  if is_nan a || is_nan b then JNaN else if leb a b then a else b.
(** [Math.round]: the nearest integer, halves rounded up. *)
Definition round (a : jsnum) : jsnum :=
  match a with JFin x => JFin (inject_Z (Qfloor (x + (1 # 2)))) | _ => a end.
(** [Math.abs]. *)
Definition abs (a : jsnum) : jsnum :=
  match a with
  | JFin x => JFin (if Qle_bool 0 x then x else - x)
  | JInf _ => JInf false
  | JNaN => JNaN
  end.
(** Truthiness: 0 and NaN are falsy. *)
Definition truthy (a : jsnum) : bool :=
  match a with JFin x => negb (Qeq_bool x 0) | JInf _ => true | JNaN => false end.

Definition of_Z (z : Z) : jsnum := JFin (inject_Z z).
Definition of_nat (n : nat) : jsnum := of_Z (Z.of_nat n).

End Num.

(* ------------------------------------------------------------------------- *)
(** * JSON values *)

(** A JSON value.  [JNum] holds the exact value of the number literal; JSON.parse
    rounds it to a double, which every read of it does ([Double.of_Q]). *)
#[local] Set Warnings "-register-all".
Inductive json :=
| JNull
| JBool (b : bool)
| JNum (q : Q)
| JStr (s : string)
| JArr (l : list json)
| JObj (fields : list (string * json)).

Module Js.

(** Truthiness of a present value; an absent property ([None]) is undefined,
    which is falsy. *)
Definition truthy (v : json) : bool :=
  match v with
  | JNull => false
  | JBool b => b
  | JNum q => Num.truthy (Double.of_Q q)
  | JStr s => negb (String.eqb s EmptyString)
  | JArr _ | JObj _ => true
  end.

Definition truthy_opt (v : option json) : bool :=
  match v with Some v => truthy v | None => false end.

(** [a || b]. *)
Definition or_else (v : option json) (d : json) : json :=
  match v with Some v => if truthy v then v else d | None => d end.

Fixpoint assoc_last (k : string) (l : list (string * json)) : option json :=
  match l with
  | [] => None
  | (k', v) :: l' =>
      match assoc_last k l' with
      | Some w => Some w
      | None => if String.eqb k k' then Some v else None
      end
  end.

(** Property read [v.k] on an object (JSON.parse keeps the last duplicate key). *)
Definition field (v : json) (k : string) : option json :=
  match v with JObj l => assoc_last k l | _ => None end.

(** [Number(s)] on a string (the StringNumericLiteral grammar): white space
    around the literal is ignored and an empty literal is 0; a literal is a
    [0x], [0o] or [0b] integer, or a decimal with an optional sign, fraction
    and exponent, or [Infinity] with an optional sign; anything else is NaN.
    The value is rounded to a double. *)
Definition is_str_ws (c : ascii) : bool :=
  let n := nat_of_ascii c in ((9 <=? n) && (n <=? 13) || (n =? 32) || (n =? 160))%nat.

Fixpoint drop_ws (l : list ascii) : list ascii :=
  match l with c :: l' => if is_str_ws c then drop_ws l' else l | [] => [] end.

Definition trim (l : list ascii) : list ascii := rev (drop_ws (rev (drop_ws l))).

(** The value of a digit in radix [r]. *)
Definition digit_value (r : Z) (c : ascii) : option Z :=
  let n := Z.of_nat (nat_of_ascii c) in
  let v := (if (48 <=? n) && (n <=? 57) then Some (n - 48)
            else if (97 <=? n) && (n <=? 122) then Some (n - 87)
            else if (65 <=? n) && (n <=? 90) then Some (n - 55) else None)%Z in
  match v with Some d => if (d <? r)%Z then Some d else None | None => None end.

(** The longest run of radix-[r] digits: its value, its length and the rest. *)
Fixpoint digits_span (r : Z) (l : list ascii) (acc : Z) (k : nat) : Z * nat * list ascii :=
  match l with
  | c :: l' =>
      match digit_value r c with
      | Some d => digits_span r l' (acc * r + d)%Z (S k)
      | None => (acc, k, l)
      end
  | [] => (acc, k, [])
  end.

Definition radix_literal (r : Z) (l : list ascii) : jsnum :=
  match digits_span r l 0 0 with
  | (v, S _, []) => Double.of_Q (inject_Z v)
  | _ => JNaN
  end.

(** StrUnsignedDecimalLiteral without [Infinity]: digits with an optional
    fraction part (a dot and maybe more digits), or a dot and digits; then an
    optional exponent: [e] or [E], an optional sign and digits. *)
Definition unsigned_decimal (l : list ascii) : option Q :=
  let '(ip, k1, l1) := digits_span 10 l 0 0 in
  let '(fp, k2, l2) :=
    match l1 with
    | c :: l' => if Ascii.eqb c "." then digits_span 10 l' 0 0 else (0%Z, O, l1)
    | [] => (0%Z, O, l1)
    end in
  let exp :=
    match l2 with
    | [] => Some 0%Z
    | c :: l3 =>
        if Ascii.eqb c "e" || Ascii.eqb c "E" then
          let '(negative, l4) :=
            match l3 with
            | d :: l5 => if Ascii.eqb d "-" then (true, l5)
                         else if Ascii.eqb d "+" then (false, l5) else (false, l3)
            | [] => (false, l3)
            end in
          match digits_span 10 l4 0 0 with
          | (e, S _, []) => Some (if negative then (- e)%Z else e)
          | _ => None
          end
        else None
    end in
  match exp with
  | Some e =>
      if (k1 + k2 =? 0)%nat then None
      else Some (inject_Z (ip * 10 ^ Z.of_nat k2 + fp) * Qpower 10 (e - Z.of_nat k2))
  | None => None
  end.

Definition decimal_literal (l : list ascii) : jsnum :=
  let '(negative, l') :=
    match l with
    | c :: l'' => if Ascii.eqb c "-" then (true, l'')
                  else if Ascii.eqb c "+" then (false, l'') else (false, l)
    | [] => (false, l)
    end in
  if String.eqb (string_of_list_ascii l') "Infinity" then JInf negative
  else match unsigned_decimal l' with
       | Some q => Double.of_Q (if negative then - q else q)
       | None => JNaN
       end.

Definition string_to_number (s : string) : jsnum :=
  match trim (Str.chars s) with
  | [] => JFin 0
  | l =>
      match l with
      | z :: x :: rest =>
          if Ascii.eqb z "0" then
            if Ascii.eqb x "x" || Ascii.eqb x "X" then radix_literal 16 rest
            else if Ascii.eqb x "o" || Ascii.eqb x "O" then radix_literal 8 rest
            else if Ascii.eqb x "b" || Ascii.eqb x "B" then radix_literal 2 rest
            else decimal_literal l
          else decimal_literal l
      | _ => decimal_literal l
      end
  end.

(** [Number(v)] as arithmetic coerces a value; an array goes through its
    [join(",")], so one with two or more elements holds a comma and is NaN,
    and a one-element array reads as its element's text. *)
Fixpoint to_number (v : json) : jsnum :=
  match v with
  | JNull => JFin 0
  | JBool b => JFin (if b then 1 else 0)
  | JNum q => Double.of_Q q
  | JStr s => string_to_number s
  | JArr [] => JFin 0
  | JArr [x] =>
      match x with
      | JNull => JFin 0
      | JBool _ | JObj _ => JNaN
      | _ => to_number x
      end
  | JArr _ | JObj _ => JNaN
  end.

End Js.

(* ------------------------------------------------------------------------- *)
(** * Platform parsers

    The analyzers call two parsers of the JavaScript runtime, [new URL(s)] and
    [JSON.parse(s)].  The analyzers below take them as parameters, so every
    theorem about an analyzer holds for any parser.  The two definitions of
    this section are concrete parsers for the closed examples: they agree with
    the runtime on the absolute http(s) URLs and the plain JSON texts used
    there, and report failure on inputs outside that range. *)

(** The parts of a parsed URL that the code reads. *)
Record UrlParts := {
  protocol : string;
  hostname : string;
  port : string;
  pathname : string;
  search : string
}.

Module Parsers.

Definition is_host_char (c : ascii) : bool :=
  Str.is_letter c || Str.is_digit c || Ascii.eqb c "-" || Ascii.eqb c "." || Ascii.eqb c "_".

(** Split at the first character satisfying [stop]. *)
Fixpoint break (stop : ascii -> bool) (l : list ascii) : list ascii * list ascii :=
  match l with
  | [] => ([], [])
  | c :: l' => if stop c then ([], l) else let (a, b) := break stop l' in (c :: a, b)
  end.

(** The part after the last ['@'] (the host and port of an authority). *)
Fixpoint after_last_at (l acc : list ascii) : list ascii :=
  match l with
  | [] => acc
  | c :: l' => if Ascii.eqb c "@" then after_last_at l' l' else after_last_at l' acc
  end.

Definition str := string_of_list_ascii.

(** [new URL(s)] on [http://] and [https://] URLs. *)
Definition whatwg_lite (s : string) : option UrlParts :=
  let l := Str.chars s in
  let scheme :=
    if Str.prefixb (Str.chars "https://") l then Some ("https:", "443", skipn 8 l)
    else if Str.prefixb (Str.chars "http://") l then Some ("http:", "80", skipn 7 l)
    else None in
  match scheme with
  | None => None
  | Some (proto, default_port, rest) =>
      let (authority, tail) :=
        break (fun c => Ascii.eqb c "/" || Ascii.eqb c "?" || Ascii.eqb c "#") rest in
      let hostport := after_last_at authority authority in
      let (host, portpart) := break (fun c => Ascii.eqb c ":") hostport in
      let portdigits := skipn 1 portpart in
      let (pathpart, qf) := break (fun c => Ascii.eqb c "?" || Ascii.eqb c "#") tail in
      let (query, _) := break (fun c => Ascii.eqb c "#") qf in
      if (List.length host =? 0)%nat || negb (forallb is_host_char host)
         || negb (forallb Str.is_digit portdigits)
      then None
      else
        let p := str portdigits in
        Some {| protocol := proto;
                hostname := Str.to_lower (str host);
                port := if String.eqb p default_port then EmptyString else p;
                pathname := match pathpart with [] => "/" | _ => str pathpart end;
                search := match query with [] | [_] => EmptyString | _ => str query end |}
  end.

Definition is_ws (c : ascii) : bool :=
  Ascii.eqb c " " || Ascii.eqb c (ascii_of_nat 9) || Ascii.eqb c (ascii_of_nat 10)
  || Ascii.eqb c (ascii_of_nat 13).

Definition quote : ascii := ascii_of_nat 34.
Definition backslash : ascii := ascii_of_nat 92.

Fixpoint skip_ws (l : list ascii) : list ascii :=
  match l with c :: l' => if is_ws c then skip_ws l' else l | [] => [] end.

(** A string body up to its closing quote mark, with the escapes of a quote
    mark, a backslash, a slash and [n]. *)
Fixpoint lex_string (l : list ascii) (acc : list ascii) : option (string * list ascii) :=
  match l with
  | [] => None
  | c :: l' =>
      if Ascii.eqb c quote then Some (str (rev acc), l')
      else if Ascii.eqb c backslash then
        match l' with
        | d :: l'' =>
            if Ascii.eqb d quote || Ascii.eqb d backslash || Ascii.eqb d "/" then lex_string l'' (d :: acc)
            else if Ascii.eqb d "n" then lex_string l'' (ascii_of_nat 10 :: acc)
            else None
        | [] => None
        end
      else lex_string l' (c :: acc)
  end.

Fixpoint lex_digits (l : list ascii) (acc : Z) (n : nat) : Z * nat * list ascii :=
  match l with
  | c :: l' =>
      if Str.is_digit c then lex_digits l' (acc * 10 + Z.of_nat (nat_of_ascii c - 48)%nat)%Z (S n)
      else (acc, n, l)
  | [] => (acc, n, [])
  end.

(** A number [-?digits(.digits)?]. *)
Definition lex_number (l : list ascii) : option (Q * list ascii) :=
  let (neg, l1) := match l with c :: l' => if Ascii.eqb c "-" then (true, l') else (false, l) | [] => (false, l) end in
  match lex_digits l1 0 0 with
  | (_, O, _) => None
  | (ip, _, l2) =>
      let '(fp, k, l3) :=
        match l2 with
        | c :: l' => if Ascii.eqb c "." then lex_digits l' 0 0 else (0%Z, O, l2)
        | [] => (0%Z, O, l2)
        end in
      let v := (inject_Z ip + inject_Z fp / inject_Z (10 ^ Z.of_nat k))%Q in
      Some (if neg then (- v)%Q else v, l3)
  end.

Fixpoint value (fuel : nat) (l : list ascii) : option (json * list ascii) :=
  match fuel with
  | O => None
  | S f =>
      match skip_ws l with
      | [] => None
      | c :: l' =>
          if Ascii.eqb c "{" then
            match skip_ws l' with
            | c' :: l'' => if Ascii.eqb c' "}" then Some (JObj [], l'') else members f (skip_ws l') []
            | [] => None
            end
          else if Ascii.eqb c "[" then
            match skip_ws l' with
            | c' :: l'' => if Ascii.eqb c' "]" then Some (JArr [], l'') else elements f l' []
            | [] => None
            end
          else if Ascii.eqb c quote then
            match lex_string l' [] with Some (s, r) => Some (JStr s, r) | None => None end
          else if Str.prefixb (Str.chars "true") (c :: l') then Some (JBool true, skipn 4 (c :: l'))
          else if Str.prefixb (Str.chars "false") (c :: l') then Some (JBool false, skipn 5 (c :: l'))
          else if Str.prefixb (Str.chars "null") (c :: l') then Some (JNull, skipn 4 (c :: l'))
          else match lex_number (c :: l') with Some (q, r) => Some (JNum q, r) | None => None end
      end
  end
with members (fuel : nat) (l : list ascii) (acc : list (string * json)) : option (json * list ascii) :=
  match fuel with
  | O => None
  | S f =>
      match skip_ws l with
      | c :: l' =>
          if Ascii.eqb c quote then
            match lex_string l' [] with
            | Some (k, r) =>
                match skip_ws r with
                | c' :: r' =>
                    if Ascii.eqb c' ":" then
                      match value f r' with
                      | Some (v, r'') =>
                          match skip_ws r'' with
                          | d :: r3 =>
                              if Ascii.eqb d "," then members f r3 ((k, v) :: acc)
                              else if Ascii.eqb d "}" then Some (JObj (rev ((k, v) :: acc)), r3)
                              else None
                          | [] => None
                          end
                      | None => None
                      end
                    else None
                | [] => None
                end
            | None => None
            end
          else None
      | [] => None
      end
  end
with elements (fuel : nat) (l : list ascii) (acc : list json) : option (json * list ascii) :=
  match fuel with
  | O => None
  | S f =>
      match value f l with
      | Some (v, r) =>
          match skip_ws r with
          | d :: r' =>
              if Ascii.eqb d "," then elements f r' (v :: acc)
              else if Ascii.eqb d "]" then Some (JArr (rev (v :: acc)), r')
              else None
          | [] => None
          end
      | None => None
      end
  end.

(** [JSON.parse(s)]: one value and nothing but white space after it. *)
Definition json_lite (s : string) : option json :=
  let l := Str.chars s in
  match value (S (List.length l)) l with
  | Some (v, r) => match skip_ws r with [] => Some v | _ => None end
  | None => None
  end.

End Parsers.

(* ------------------------------------------------------------------------- *)
(** * Request environment and responses *)

(** What [await fetch(...)] of the AI gateway does: it rejects (network
    failure), or resolves to a response with its [ok] flag, status and body. *)
Inductive FetchResult :=
| FetchRejects
| FetchResolves (ok : bool) (status : Z) (body : string).

(** Everything a request handler reads besides the request itself. *)
Record Env := {
  env_api_key : option string;   (* Deno.env.get("LOVABLE_API_KEY") *)
  env_fetch : FetchResult;       (* the AI gateway call *)
  env_random : list Z;           (* crypto.getRandomValues(new Uint8Array(32)) *)
  env_now : string               (* new Date().toISOString() *)
}.

(** The JSON body of a successful response, with the fields the analyzers
    set ([None] for a field a response does not carry). *)
Record Result := {
  r_result : string;
  r_confidence : jsnum;
  r_threatIndicators : list json;
  r_ruleBasedScore : option jsnum;
  r_aiScore : option jsnum;
  r_combinedScore : option jsnum;
  r_method : string;
  r_blockchainHash : option string;
  r_timestamp : option string
}.

(** A response: the success body, or an error status with its [error] message.
    Messages of runtime exceptions are abstracted to the exception's name. *)
Inductive Response :=
| ROk (r : Result)
| RError (status : Z) (message : string).

(** [b.toString(16).padStart(2, '0')] for a byte [b]. *)
Definition hex_digit (n : Z) : ascii :=
  if (n <? 10)%Z then ascii_of_nat (Z.to_nat (48 + n)) else ascii_of_nat (Z.to_nat (87 + n)).
Definition byte_hex (b : Z) : string :=
  if (b <? 16)%Z then String "0" (String (hex_digit b) EmptyString)
  else String (hex_digit (b / 16)) (String (hex_digit (b mod 16)) EmptyString).

(** The simulated blockchain hash: [0x] and the hex digits of 32 random bytes. *)
Definition blockchainHash (env : Env) : string :=
  "0x" ++ String.concat EmptyString (map byte_hex (env_random env)).

(** The value of a lower-case hexadecimal digit [0-9a-f], and the bytes a
    string of such digits spells two by two (to state the tag's format). *)
Definition hex_value (c : ascii) : option Z :=
  let n := Z.of_nat (nat_of_ascii c) in
  if ((48 <=? n) && (n <=? 57))%Z then Some (n - 48)%Z
  else if ((97 <=? n) && (n <=? 102))%Z then Some (n - 87)%Z
  else None.
Fixpoint decode_hex (l : list ascii) : option (list Z) :=
  match l with
  | [] => Some []
  | hi :: lo :: rest =>
      match hex_value hi, hex_value lo, decode_hex rest with
      | Some a, Some b, Some r => Some ((16 * a + b)%Z :: r)
      | _, _, _ => None
      end
  | [_] => None
  end.

(** Truthiness of an optional string field. *)
Definition str_truthy (o : option string) : bool :=
  match o with Some s => negb (String.eqb s EmptyString) | None => false end.

(** [o || ""] for an optional string. *)
Definition str_or_empty (o : option string) : string :=
  match o with Some s => s | None => EmptyString end.

(* ------------------------------------------------------------------------- *)
(** * Logo heuristic (analyze-logo/index.ts, lines 1-140) *)

Section Logo.

Variable parse_url : string -> option UrlParts.

Definition SAFE_DOMAINS : list string := ["netflix.com"; "amazon.com"; "paypal.com"].
Definition PHISH_KEYWORDS : list string := ["phish"; "fake"; "scam"; "suspicious"].

Definition domainFromUrl (url : string) : string :=
  match parse_url url with
  | Some u => Str.to_lower (hostname u)
  | None => EmptyString
  end.

Definition hasSafeDomain (url : string) : bool :=
  let host := domainFromUrl url in
  existsb (fun d => String.eqb host d || Str.ends_with host ("." ++ d)) SAFE_DOMAINS.

(** The request fields [imageUrl] and [base64Image] as the heuristic reads
    them: [imageUrl] as a string or absent (the handler reads a falsy
    non-string as absent, and a truthy one throws), [base64Image] as any value,
    read only for its truthiness. *)
Record LogoInput := {
  imageUrl : option string;
  base64Image : option json
}.

Record LogoHeuristic := {
  verdict : string;
  probability : Z;
  issues : list string;
  detectedBrand : option string
}.

(** Lines 27-58: the score and issues before the verdict is produced. *)
Definition calcLogoScore (input : LogoInput) : Z * list string :=
  let imageUrl := imageUrl input in
  let isLocal := Js.truthy_opt (base64Image input)
                 || (str_truthy imageUrl && negb (Str.starts_with (str_or_empty imageUrl) "http")) in
  let url := Str.to_lower (str_or_empty imageUrl) in
  let '(score, issues) := (0%Z, @nil string) in
  let '(score, issues) :=
    if str_truthy imageUrl && existsb (Str.includes url) PHISH_KEYWORDS
    then ((score + 50)%Z, (issues ++ ["URL contains phishing keywords"])%list) else (score, issues) in
  let '(score, issues) :=
    if isLocal
    then ((score + 30)%Z, (issues ++ ["Local/base64 image (source cannot be verified)"])%list) else (score, issues) in
  let '(score, issues) :=
    if str_truthy imageUrl
       && (Str.includes url "blur" || (String.length (str_or_empty imageUrl) <? 50)%nat)
    then ((score + 20)%Z, (issues ++ ["Low-signal / potentially blurred image reference"])%list) else (score, issues) in
  let looksLikePaypal := Str.includes url "paypal" in
  let hostedOnPaypal :=
    if str_truthy imageUrl
    then Str.includes (domainFromUrl (str_or_empty imageUrl)) "paypal"
         || Str.includes (str_or_empty imageUrl) "paypal.com"
    else false in
  let '(score, issues) :=
    if looksLikePaypal && str_truthy imageUrl && negb hostedOnPaypal
    then (Z.max score 92, (issues ++ ["PayPal brand on non-official source"])%list) else (score, issues) in
  (score, issues).

Definition calcLogoHeuristic (input : LogoInput) : LogoHeuristic :=
  let imageUrl := imageUrl input in
  let url := Str.to_lower (str_or_empty imageUrl) in
  let '(score, issues) := calcLogoScore input in
  if str_truthy imageUrl && hasSafeDomain (str_or_empty imageUrl) && (score =? 0)%Z then
    {| verdict := "safe"; probability := 8; issues := issues;
       detectedBrand :=
         if Str.includes url "netflix" then Some "netflix"
         else if Str.includes url "amazon" then Some "amazon"
         else if Str.includes url "paypal" then Some "paypal" else None |}
  else if (score =? 0)%Z then
    {| verdict := "unknown"; probability := 45;
       issues := ["Unknown logo / insufficient signals"]; detectedBrand := None |}
  else
    let probability := Z.min 95 score in
    let verdict := if (30 <? probability)%Z then "phishing" else "unknown" in
    {| verdict := verdict; probability := probability; issues := issues;
       detectedBrand :=
         if Str.includes url "paypal" then Some "paypal"
         else if Str.includes url "netflix" then Some "netflix"
         else if Str.includes url "amazon" then Some "amazon" else None |}.

End Logo.

(* ------------------------------------------------------------------------- *)
(** * Exceptions *)

(** A computation that returns or throws (the thrown error's message). *)
Inductive outcome (A : Type) :=
| Ret (a : A)
| Throw (message : string).
Arguments Ret {A} a.
Arguments Throw {A} message.

Definition bind {A B} (m : outcome A) (k : A -> outcome B) : outcome B :=
  match m with Ret a => k a | Throw e => Throw e end.

Notation "x <- m ;; k" := (bind m (fun x => k)) (at level 61, m at next level, right associativity).

(** [catch (error) { ... status: 500 ... }] at the end of each handler. *)
Definition catch_500 (m : outcome Response) : Response :=
  match m with Ret r => r | Throw e => RError 500 e end.

(** [const LOVABLE_API_KEY = Deno.env.get(...); if (!LOVABLE_API_KEY) throw ...] *)
Definition require_api_key (env : Env) : outcome unit :=
  if str_truthy (env_api_key env) then Ret tt else Throw "LOVABLE_API_KEY is not configured".

(* ------------------------------------------------------------------------- *)
(** * Logo handler *)

(** The logo handler (lines 76-140).  [threatIndicators] is
    [[...new Set(allIssues)]], which keeps the first of the values that are
    SameValueZero. *)
Definition same_value (a b : json) : bool :=
  match a, b with
  | JNull, JNull => true
  | JBool x, JBool y => Bool.eqb x y
  | JNum x, JNum y =>
      match Double.of_Q x, Double.of_Q y with
      | JFin a, JFin b => Qeq_bool a b
      | JInf n, JInf m => Bool.eqb n m
      | _, _ => false
      end
  | JStr x, JStr y => String.eqb x y
  | _, _ => false  (* distinct arrays and objects are distinct references *)
  end.

(** [[...new Set(l)]]: the first occurrence of each value, in order. *)
Fixpoint set_spread_acc (acc l : list json) : list json :=
  match l with
  | [] => rev acc
  | x :: l' => if existsb (same_value x) acc then set_spread_acc acc l' else set_spread_acc (x :: acc) l'
  end.
Definition set_spread (l : list json) : list json := set_spread_acc [] l.

(** [imageUrl] as the heuristic meets it: a string is kept, a falsy value is
    as good as absent, and a truthy non-string throws at [imageUrl.startsWith]
    or [(imageUrl || "").toLowerCase()] (lines 28-29). *)
Definition logo_image_url (v : option json) : outcome (option string) :=
  match v with
  | Some (JStr s) => Ret (Some s)
  | Some w => if Js.truthy w then Throw "TypeError" else Ret None
  | None => Ret None
  end.

(** The POST handler; [body] is the result of [req.json()] ([None] when the
    request body is not JSON); destructuring [null] throws. *)
Definition logo_serve (parse_url : string -> option UrlParts) (body : option json) (env : Env)
  : Response :=
  catch_500
    (match body with
     | None => Throw "SyntaxError"
     | Some JNull => Throw "TypeError"
     | Some b =>
         let imageUrl := Js.field b "imageUrl" in
         let base64Image := Js.field b "base64Image" in
         if negb (Js.truthy_opt imageUrl || Js.truthy_opt base64Image)
         then Ret (RError 400 "Image URL or base64 image is required")
         else
           url <- logo_image_url imageUrl ;;
           let heuristic :=
             calcLogoHeuristic parse_url {| imageUrl := url; base64Image := base64Image |} in
           let allIssues := issues heuristic in
           Ret (ROk {| r_result := verdict heuristic;
                       r_confidence := Num.of_Z (probability heuristic);
                       r_threatIndicators := set_spread (map JStr allIssues);
                       r_ruleBasedScore := None;
                       r_aiScore := None;
                       r_combinedScore := None;
                       r_method := "heuristic-logo-v2";
                       r_blockchainHash := Some (blockchainHash env);
                       r_timestamp := Some (env_now env) |})
     end).

(* ------------------------------------------------------------------------- *)
(** * URL analyzer: features and rule-based score (lines 142-349) *)

Module Regex.

(** The rests of [l] after 1, 2 or 3 leading digits ([\d{1,3}]). *)
Definition after_1_to_3_digits (l : list ascii) : list (list ascii) :=
  match l with
  | a :: l1 =>
      if Str.is_digit a then
        l1 :: match l1 with
              | b :: l2 =>
                  if Str.is_digit b then
                    l2 :: match l2 with c :: l3 => if Str.is_digit c then [l3] else [] | [] => [] end
                  else []
              | [] => []
              end
      else []
  | [] => []
  end.

(** [n] groups of 1 to 3 digits separated by dots, at the start of [l]. *)
Fixpoint dotted_groups (n : nat) (l : list ascii) : bool :=
  match n with
  | O => true
  | S m =>
      existsb (fun r => match m with
                        | O => true
                        | S _ => match r with c :: r' => Ascii.eqb c "." && dotted_groups m r' | [] => false end
                        end)
              (after_1_to_3_digits l)
  end.

(** An unanchored [test]: some suffix starts with a match. *)
Fixpoint search (p : list ascii -> bool) (l : list ascii) : bool :=
  p l || match l with [] => false | _ :: l' => search p l' end.

(** [/\d{1,3}\.\d{1,3}\.\d{1,3}\.\d{1,3}/.test(s)] *)
Definition ipv4_test (s : string) : bool := search (dotted_groups 4) (Str.chars s).

(** [/%[0-9a-fA-F]{2}/.test(s)] *)
Definition encoded_test (s : string) : bool :=
  search (fun l => match l with
                   | p :: a :: b :: _ => Ascii.eqb p "%" && Str.is_hex a && Str.is_hex b
                   | _ => false
                   end) (Str.chars s).

End Regex.

(** Shannon entropy of a string, kept as its length [L] and the count [c] of
    each distinct character: entropy = log2 L - (1/L) * sum (c * log2 c). *)
Record Entropy := { ent_length : nat; ent_counts : list nat }.

Fixpoint bump (c : ascii) (freq : list (ascii * nat)) : list (ascii * nat) :=
  match freq with
  | [] => [(c, 1%nat)]
  | (d, n) :: f => if Ascii.eqb c d then (d, S n) :: f else (d, n) :: bump c f
  end.

Definition calculateEntropy (s : string) : Entropy :=
  {| ent_length := String.length s;
     ent_counts := map snd (fold_left (fun f c => bump c f) (Str.chars s) []) |}.

(** [entropy > 4.5], decided exactly: the entropy exceeds 9/2 iff
    L^(2L) > 2^(9L) * prod (c^(2c)). *)
Definition entropy_gt_4_5 (e : Entropy) : bool :=
  let L := Z.of_nat (ent_length e) in
  let prod := fold_left (fun acc c => (acc * Z.of_nat c ^ (2 * Z.of_nat c))%Z) (ent_counts e) 1%Z in
  (2 ^ (9 * L) * prod <? L ^ (2 * L))%Z.

Definition is_consonant (c : ascii) : bool :=
  Str.is_letter c
  && negb (existsb (Ascii.eqb (Str.lower_char c)) ["a"; "e"; "i"; "o"; "u"]%char).

Definition calculateConsonantRatio (s : string) : Q :=
  let consonants := Str.count is_consonant s in
  let letters := Str.count Str.is_letter s in
  if (0 <? letters)%nat then (inject_Z (Z.of_nat consonants) / inject_Z (Z.of_nat letters))%Q else 0%Q.

Record UrlFeatures := {
  length : nat;
  numDots : nat;
  numHyphens : nat;
  numUnderscores : nat;
  numSlashes : nat;
  numDigits : nat;
  numAtSymbols : nat;
  hasHttps : bool;
  hasIpAddress : bool;
  hasSuspiciousTld : bool;
  hasSuspiciousKeywords : bool;
  hasEncodedChars : bool;
  domainLength : nat;
  pathLength : nat;
  queryLength : nat;
  numSubdomains : nat;
  hasPortNumber : bool;
  suspiciousKeywords : list string;
  entropy : Entropy;
  consonantRatio : Q;
  digitRatio : jsnum
}.

Definition suspiciousKeywordList : list string := [
  "login"; "signin"; "verify"; "secure"; "account"; "update"; "confirm";
  "banking"; "password"; "credential"; "suspended"; "unusual"; "alert";
  "verify"; "wallet"; "paypal"; "apple"; "microsoft"; "google"; "facebook";
  "amazon"; "netflix"; "support"; "help"; "service"; "billing"; "payment";
  "authenticate"; "validation"; "security"; "urgent"; "immediately"; "action";
  "required"; "expire"; "limited"; "restore"; "unlock"; "reactivate"].

Definition suspiciousTlds : list string := [
  ".xyz"; ".top"; ".tk"; ".ml"; ".ga"; ".cf"; ".gq"; ".pw"; ".cc";
  ".club"; ".online"; ".site"; ".website"; ".space"; ".icu"; ".buzz"].

Definition count_char (c : ascii) (s : string) : nat := Str.count (Ascii.eqb c) s.

(** [(url.match(/\d/g) || []).length / url.length] *)
Definition digit_ratio (url : string) : jsnum :=
  Num.div (Num.of_nat (Str.count Str.is_digit url)) (Num.of_nat (String.length url)).

Section UrlFeatureExtraction.

Variable parse_url : string -> option UrlParts.

Definition extractUrlFeatures (url : string) : UrlFeatures :=
  let lower := Str.to_lower url in
  match parse_url (if Str.starts_with url "http" then url else "https://" ++ url) with
  | None =>
      {| length := String.length url;
         numDots := count_char "." url;
         numHyphens := count_char "-" url;
         numUnderscores := count_char "_" url;
         numSlashes := count_char "/" url;
         numDigits := Str.count Str.is_digit url;
         numAtSymbols := count_char "@" url;
         hasHttps := false;
         hasIpAddress := Regex.ipv4_test url;
         hasSuspiciousTld := existsb (Str.includes lower) suspiciousTlds;
         hasSuspiciousKeywords := existsb (Str.includes lower) suspiciousKeywordList;
         hasEncodedChars := Regex.encoded_test url;
         domainLength := 0;
         pathLength := 0;
         queryLength := 0;
         numSubdomains := 0;
         hasPortNumber := false;
         suspiciousKeywords := filter (Str.includes lower) suspiciousKeywordList;
         entropy := calculateEntropy url;
         consonantRatio := calculateConsonantRatio url;
         digitRatio := digit_ratio url |}
  | Some parsedUrl =>
      let host := hostname parsedUrl in
      let subdomains := (Z.of_nat (Str.split_length "." host) - 2)%Z in
      let foundKeywords := filter (Str.includes lower) suspiciousKeywordList in
      {| length := String.length url;
         numDots := count_char "." url;
         numHyphens := count_char "-" url;
         numUnderscores := count_char "_" url;
         numSlashes := count_char "/" url;
         numDigits := Str.count Str.is_digit url;
         numAtSymbols := count_char "@" url;
         hasHttps := String.eqb (protocol parsedUrl) "https:";
         hasIpAddress := Regex.ipv4_test host;
         hasSuspiciousTld := existsb (Str.ends_with (Str.to_lower host)) suspiciousTlds;
         hasSuspiciousKeywords := (0 <? List.length foundKeywords)%nat;
         hasEncodedChars := Regex.encoded_test url;
         domainLength := String.length host;
         pathLength := String.length (pathname parsedUrl);
         queryLength := String.length (search parsedUrl);
         numSubdomains := Z.to_nat (Z.max 0 subdomains);
         hasPortNumber := negb (String.eqb (port parsedUrl) EmptyString);
         suspiciousKeywords := foundKeywords;
         entropy := calculateEntropy url;
         consonantRatio := calculateConsonantRatio host;
         digitRatio := digit_ratio url |}
  end.

End UrlFeatureExtraction.

Definition qmin (a b : Q) : Q := if Qle_bool a b then a else b.

Definition nat_Q (n : nat) : Q := inject_Z (Z.of_nat n).

(** Lines 272-349.  The score is a finite number, kept as a rational. *)
Definition calculateRiskScore (features : UrlFeatures) : Q * list string :=
  let add (cond : bool) (points : Q) (threat : string) (st : Q * list string) :=
    let '(score, threats) := st in
    if cond then (score + points, (threats ++ [threat])%list) else (score, threats) in
  let st := (0%Q, @nil string) in
  let st := add (hasIpAddress features) 25 "IP address used instead of domain name" st in
  let st := add (negb (hasHttps features)) 10 "Insecure HTTP connection" st in
  let st := add (hasSuspiciousTld features) 20 "Suspicious top-level domain detected" st in
  let st := add (hasSuspiciousKeywords features)
                (qmin 25 (nat_Q (List.length (suspiciousKeywords features)) * 8))
                ("Phishing keywords detected: "
                   ++ String.concat ", " (firstn 3 (suspiciousKeywords features))) st in
  let st := add (100 <? length features)%nat
                (qmin 15 ((nat_Q (length features) - 100) / 20 * 5)) "Abnormally long URL" st in
  let st := add (3 <? numSubdomains features)%nat
                (qmin 15 ((nat_Q (numSubdomains features) - 3) * 5)) "Multiple subdomain levels detected" st in
  let st := add (3 <? numHyphens features)%nat
                (qmin 10 ((nat_Q (numHyphens features) - 3) * 3)) "Excessive hyphens in URL" st in
  let st := add (0 <? numAtSymbols features)%nat 20 "URL contains @ symbol (potential redirect attack)" st in
  let st := add (hasEncodedChars features) 10 "URL contains encoded characters" st in
  let st := add (hasPortNumber features) 15 "Non-standard port number in URL" st in
  let st := add (entropy_gt_4_5 (entropy features)) 10 "High entropy domain (potentially auto-generated)" st in
  let st := add (Num.gt (digitRatio features) (Double.of_Q (3 # 10))) 10 "High ratio of digits in URL" st in
  let '(score, threats) := st in
  (qmin 100 score, threats).

(* ------------------------------------------------------------------------- *)
(** * AI gateway answers *)

(** [v?.[0]] and [v?.k]: undefined on undefined or null. *)
Definition opt_index0 (v : option json) : option json :=
  match v with
  | Some (JArr (x :: _)) => Some x
  | Some (JObj l) => Js.assoc_last "0" l
  | Some (JStr (String c _)) => Some (JStr (String c EmptyString))
  | _ => None
  end.
Definition opt_field (v : option json) (k : string) : option json :=
  match v with Some w => Js.field w k | None => None end.

(** [aiData.choices?.[0]?.message?.content || "{}"]: [aiData.choices] throws
    when the answer is [null].  The content is used inside a [try], where
    [aiContent.match] throws unless it is a string. *)
Definition gateway_content (aiData : json) : outcome json :=
  match aiData with
  | JNull => Throw "TypeError"
  | _ => Ret (Js.or_else (opt_field (opt_field (opt_index0 (Js.field aiData "choices")) "message") "content")
                         (JStr "{}"))
  end.

Fixpoint drop_until (c : ascii) (l : list ascii) : list ascii :=
  match l with [] => [] | d :: l' => if Ascii.eqb c d then l else drop_until c l' end.

(** [content.match(/\{[\s\S]*\}/)]: from the first opening brace to the last
    closing brace after it. *)
Definition brace_match (s : string) : option string :=
  match drop_until "{" (Str.chars s) with
  | [] => None
  | l => match drop_until "}" (rev l) with
         | [] => None
         | r => Some (string_of_list_ascii (rev r))
         end
  end.

(** [...v] of an iterable value; other values throw. *)
Definition spread (v : json) : outcome (list json) :=
  match v with
  | JArr l => Ret l
  | JStr s => Ret (map (fun c => JStr (String c EmptyString)) (Str.chars s))
  | _ => Throw "TypeError"
  end.

Definition spread_if_truthy (v : option json) : outcome (list json) :=
  match v with Some w => if Js.truthy w then spread w else Ret [] | None => Ret [] end.

(** [combinedScore >= 50 ? "phishing" : combinedScore >= 25 ? "suspicious" : "safe"]
    (index.ts lines 426 and 467, the email analyzer's line 303). *)
Definition threshold_result (combinedScore : jsnum) : string :=
  if Num.ge combinedScore (JFin 50) then "phishing"
  else if Num.ge combinedScore (JFin 25) then "suspicious"
  else "safe".

(** [aiAnalysis.isPhishing ? 50 + (aiAnalysis.confidence || 50) / 2
                           : 50 - (aiAnalysis.confidence || 50) / 2] *)
Definition ai_score (aiAnalysis : json) : jsnum :=
  let c := Js.to_number (Js.or_else (Js.field aiAnalysis "confidence") (JNum 50)) in
  if Js.truthy_opt (Js.field aiAnalysis "isPhishing")
  then Num.add (JFin 50) (Num.div c (JFin 2))
  else Num.sub (JFin 50) (Num.div c (JFin 2)).

(** [(ruleBasedScore * 0.4) + (aiScore * 0.6)]; the literals are the doubles
    nearest to 2/5 and 3/5. *)
Definition combined_score (ruleBasedScore : Q) (aiScore : jsnum) : jsnum :=
  Num.add (Num.mul (JFin ruleBasedScore) (Double.of_Q (2 # 5)))
          (Num.mul aiScore (Double.of_Q (3 # 5))).

(* ------------------------------------------------------------------------- *)
(** * URL analyzer: request handler (lines 351-511) *)

Section UrlServe.

Variable parse_url : string -> option UrlParts.
Variable json_parse : string -> option json.

(** The neutral analysis of the [catch] of lines 450-453. *)
Definition url_neutral_analysis : json :=
  JObj [("isPhishing", JBool false); ("confidence", JNum 50);
        ("reasoning", JStr "Unable to parse AI response")].

(** The value [aiAnalysis] of lines 447-453 when the gateway answered 2xx:
    the neutral object when the content is not a string (its [match] throws)
    or does not parse, [{}] when it has no brace pair.  (A text that starts
    with a brace parses to an object.) *)
Definition url_ai_analysis (aiContent : json) : json :=
  match aiContent with
  | JStr s =>
      match brace_match s with
      | Some m =>
          match json_parse m with
          | Some v => v
          | None => url_neutral_analysis
          end
      | None => JObj []
      end
  | _ => url_neutral_analysis
  end.

(** Lines 457-500, from the parsed analysis to the response. *)
Definition url_hybrid_result (url : string) (ruleBasedScore : Q) (threats : list string)
    (aiAnalysis : json) (env : Env) : outcome Response :=
  let aiScore := ai_score aiAnalysis in
  let combinedScore := combined_score ruleBasedScore aiScore in
  let finalConfidence :=
    Num.round
      (if negb (Qle_bool ruleBasedScore 20) || Js.truthy_opt (Js.field aiAnalysis "isPhishing")
       then Num.max combinedScore
                    (Js.to_number (Js.or_else (Js.field aiAnalysis "confidence") (JNum 70)))
       else Num.min (Num.sub (JFin 100) combinedScore) (JFin 95)) in
  let result := threshold_result combinedScore in
  extra <- spread_if_truthy (Js.field aiAnalysis "additionalThreats") ;;
  let reasoning :=
    match Js.field aiAnalysis "reasoning" with
    | Some r => if Js.truthy r && negb (String.eqb result "safe") then [r] else []
    | None => []
    end in
  let allThreats := (map JStr threats ++ extra ++ reasoning)%list in
  Ret (ROk {| r_result := result;
              r_confidence :=
                if String.eqb result "safe" then finalConfidence
                else Num.add (Num.sub (JFin 100) finalConfidence) (JFin 50);
              r_threatIndicators := set_spread allThreats;
              r_ruleBasedScore := Some (JFin ruleBasedScore);
              r_aiScore := Some (Num.round aiScore);
              r_combinedScore := Some (Num.round combinedScore);
              r_method := "hybrid-ai";
              r_blockchainHash := Some (blockchainHash env);
              r_timestamp := Some (env_now env) |}).

(** Lines 423-443: the rule-based fallback on a non-2xx gateway answer. *)
Definition url_rule_based_result (ruleBasedScore : Q) (threats : list string) : Response :=
  ROk {| r_result := threshold_result (JFin ruleBasedScore);
         r_confidence := Num.sub (JFin 100) (Num.abs (Num.sub (JFin 50) (JFin ruleBasedScore)));
         r_threatIndicators := map JStr threats;
         r_ruleBasedScore := Some (JFin ruleBasedScore);
         r_aiScore := None;
         r_combinedScore := None;
         r_method := "rule-based";
         r_blockchainHash := None;
         r_timestamp := None |}.

(** The handler after the request validation, for the string [url]. *)
Definition url_analyze (url : string) (env : Env) : outcome Response :=
  _ <- require_api_key env ;;
  let features := extractUrlFeatures parse_url url in
  let '(ruleBasedScore, threats) := calculateRiskScore features in
  match env_fetch env with
  | FetchRejects => Throw "TypeError"
  | FetchResolves ok _ body =>
      if negb ok then Ret (url_rule_based_result ruleBasedScore threats)
      else
        match json_parse body with
        | None => Throw "SyntaxError"
        | Some aiData =>
            aiContent <- gateway_content aiData ;;
            url_hybrid_result url ruleBasedScore threats (url_ai_analysis aiContent) env
        end
  end.

(** The POST handler; [body] is the result of [req.json()] ([None] when the
    request body is not JSON). *)
Definition url_serve (body : option json) (env : Env) : Response :=
  catch_500
    (match body with
     | None => Throw "SyntaxError"
     | Some JNull => Throw "TypeError"
     | Some b =>
         match Js.field b "url" with
         | Some (JStr url) =>
             if String.eqb url EmptyString then Ret (RError 400 "URL is required")
             else url_analyze url env
         | _ => Ret (RError 400 "URL is required")
         end
     end).

End UrlServe.

(* ------------------------------------------------------------------------- *)
(** * Email analyzer: scoring and combination (email function, lines 155-340)

    The feature record is taken as given: the statements below hold whatever
    [extractEmailFeatures] (lines 68-153) returns. *)

Record EmailFeatures := {
  senderDomain : string;
  senderUser : string;
  isSpoofedDomain : bool;
  hasUrgencyKeywords : bool;
  urgencyCount : nat;
  hasVerificationKeywords : bool;
  hasThreateningLanguage : bool;
  hasSuspiciousLinks : bool;
  linkCount : nat;
  suspiciousLinks : list string;
  hasAttachmentMentions : bool;
  hasMoneyRelatedContent : bool;
  hasBrandImpersonation : bool;
  impersonatedBrands : list string;
  grammarScore : Z;
  sentimentScore : Z
}.

(** Decimal rendering of a count in a template string. *)
Fixpoint digits_rev (fuel n : nat) : list ascii :=
  match fuel with
  | O => []
  | S f => ascii_of_nat (48 + n mod 10)%nat :: (if (n <? 10)%nat then [] else digits_rev f (n / 10)%nat)
  end.
Definition nat_to_string (n : nat) : string := string_of_list_ascii (rev (digits_rev (S n) n)).

Definition calculateEmailRiskScore (features : EmailFeatures) : Z * list string :=
  let add (cond : bool) (points : Z) (threat : string) (st : Z * list string) :=
    let '(score, threats) := st in
    if cond then ((score + points)%Z, (threats ++ [threat])%list) else (score, threats) in
  let st := (0%Z, @nil string) in
  let st := add (isSpoofedDomain features) 30%Z
                ("Spoofed sender domain detected: " ++ senderDomain features) st in
  let st := add (hasBrandImpersonation features) 25%Z
                ("Brand impersonation attempt: " ++ String.concat ", " (impersonatedBrands features)) st in
  let st := add (hasUrgencyKeywords features) (Z.min 20 (Z.of_nat (urgencyCount features) * 5))%Z
                ("Urgency manipulation detected (" ++ nat_to_string (urgencyCount features) ++ " keywords)") st in
  let st := add (hasVerificationKeywords features) 15%Z "Credential harvesting language detected" st in
  let st := add (hasThreateningLanguage features) 20%Z "Threatening/fear-based language detected" st in
  let st := add (hasSuspiciousLinks features) 20%Z
                ("Suspicious links found: " ++ nat_to_string (List.length (suspiciousLinks features))) st in
  let st := add (hasMoneyRelatedContent features
                 && (hasUrgencyKeywords features || hasThreateningLanguage features)) 15%Z
                "Financial urgency pressure tactics" st in
  let st := add (grammarScore features <? 60)%Z 10%Z "Poor grammar quality (common in phishing)" st in
  let '(score, threats) := st in
  (Z.min 100 score, threats)%Z.

Section EmailServe.

Variable json_parse : string -> option json.

(** The analysis used when the gateway answer is not 2xx or does not parse. *)
Definition email_default_analysis : json :=
  JObj [("isPhishing", JBool false); ("confidence", JNum 50); ("reasoning", JStr EmptyString);
        ("tactics", JArr []); ("redFlags", JArr [])].

Definition email_ai_analysis (ok : bool) (body : string) : outcome json :=
  if negb ok then Ret email_default_analysis
  else
    match json_parse body with
    | None => Throw "SyntaxError"
    | Some aiData =>
        aiContent <- gateway_content aiData ;;
        Ret (match aiContent with
             | JStr s =>
                 match brace_match s with
                 | Some m => match json_parse m with Some v => v | None => email_default_analysis end
                 | None => email_default_analysis
                 end
             | _ => email_default_analysis
             end)
    end.

(** Lines 217-340 for a request that passed validation. *)
Definition email_analyze (features : EmailFeatures) (env : Env) : outcome Response :=
  _ <- require_api_key env ;;
  let '(score, threats) := calculateEmailRiskScore features in
  let ruleBasedScore := inject_Z score in
  match env_fetch env with
  | FetchRejects => Throw "TypeError"
  | FetchResolves ok _ body =>
      aiAnalysis <- email_ai_analysis ok body ;;
      let aiScore := ai_score aiAnalysis in
      let combinedScore := combined_score ruleBasedScore aiScore in
      let result := threshold_result combinedScore in
      let confidence :=
        Num.round (if String.eqb result "safe" then Num.sub (JFin 100) combinedScore
                   else Num.min (JFin 98) (Num.add combinedScore (JFin 20))) in
      tactics <- spread_if_truthy (Js.field aiAnalysis "tactics") ;;
      redFlags <- spread_if_truthy (Js.field aiAnalysis "redFlags") ;;
      let reasoning :=
        match Js.field aiAnalysis "reasoning" with
        | Some r => if Js.truthy r && negb (String.eqb result "safe") then [r] else []
        | None => []
        end in
      let allThreats := (map JStr threats ++ tactics ++ redFlags ++ reasoning)%list in
      Ret (ROk {| r_result := result;
                  r_confidence := confidence;
                  r_threatIndicators := firstn 8 (set_spread allThreats);
                  r_ruleBasedScore := Some (JFin ruleBasedScore);
                  r_aiScore := Some (Num.round aiScore);
                  r_combinedScore := Some (Num.round combinedScore);
                  r_method := "hybrid-email-ai";
                  r_blockchainHash := Some (blockchainHash env);
                  r_timestamp := Some (env_now env) |})
  end.

End EmailServe.

(* ------------------------------------------------------------------------- *)
(** * Email analyzer: feature extraction and request handler
    (email function, lines 27-153 and 202-220) *)

Definition urgencyKeywords : list string := [
  "urgent"; "immediately"; "asap"; "right away"; "right now"; "hurry";
  "time sensitive"; "act now"; "limited time"; "expires"; "deadline";
  "last chance"; "don't delay"; "must act"; "final notice"; "warning";
  "immediate action"; "24 hours"; "48 hours"; "today only"; "now"].

Definition verificationKeywords : list string := [
  "verify"; "confirm"; "validate"; "authenticate"; "update your";
  "review your"; "check your"; "secure your"; "protect your"].

Definition threateningKeywords : list string := [
  "suspended"; "disabled"; "blocked"; "locked"; "terminated";
  "closed"; "restricted"; "limited"; "compromised"; "unauthorized";
  "violation"; "penalty"; "legal action"; "prosecution"; "arrest"].

Definition moneyKeywords : list string := [
  "payment"; "invoice"; "bill"; "charge"; "refund"; "credit";
  "bank"; "transfer"; "wire"; "bitcoin"; "crypto"; "prize";
  "winner"; "lottery"; "inheritance"; "million"; "dollar"].

Definition knownBrands : list string := [
  "paypal"; "amazon"; "apple"; "microsoft"; "google"; "facebook";
  "netflix"; "spotify"; "instagram"; "twitter"; "linkedin"; "bank";
  "wells fargo"; "chase"; "citi"; "hsbc"; "barclays"; "irs"; "dhl";
  "fedex"; "ups"; "usps"; "dropbox"; "adobe"; "zoom"; "slack"].

Definition legitimateDomains : list (string * list string) := [
  ("paypal", ["paypal.com"; "paypal.co.uk"]);
  ("amazon", ["amazon.com"; "amazon.co.uk"; "amazon.in"; "amazon.de"]);
  ("apple", ["apple.com"; "icloud.com"]);
  ("microsoft", ["microsoft.com"; "outlook.com"; "live.com"; "hotmail.com"]);
  ("google", ["google.com"; "gmail.com"]);
  ("netflix", ["netflix.com"]);
  ("facebook", ["facebook.com"; "fb.com"])].

(** [legitimateDomains[brand]]: undefined for a brand without an entry. *)
Fixpoint lookup_domains (brand : string) (t : list (string * list string)) : option (list string) :=
  match t with
  | [] => None
  | (k, ds) :: t' => if String.eqb brand k then Some ds else lookup_domains brand t'
  end.

Module MailRegex.

(** [\s] on ASCII: tab, line feed, vertical tab, form feed, carriage return, space. *)
Definition is_space (c : ascii) : bool :=
  let n := nat_of_ascii c in (((9 <=? n) && (n <=? 13)) || (n =? 32))%nat.

(** [[a-zA-Z0-9.-]] *)
Definition is_domain_char (c : ascii) : bool :=
  Str.is_letter c || Str.is_digit c || Ascii.eqb c "." || Ascii.eqb c "-".

Fixpoint take_while (p : ascii -> bool) (l : list ascii) : list ascii :=
  match l with [] => [] | c :: l' => if p c then c :: take_while p l' else [] end.

(** [s.match(/@([a-zA-Z0-9.-]+)/)], its group: the run after the first ['@']
    that is followed by at least one domain character. *)
Fixpoint domain_match (l : list ascii) : option (list ascii) :=
  match l with
  | [] => None
  | c :: l' =>
      if Ascii.eqb c "@" then
        match take_while is_domain_char l' with
        | [] => domain_match l'
        | d => Some d
        end
      else domain_match l'
  end.

(** [/\d{3,}/.test(s)] *)
Definition three_digits_test (s : string) : bool :=
  Regex.search (fun l => match l with
                         | a :: b :: c :: _ => Str.is_digit a && Str.is_digit b && Str.is_digit c
                         | _ => false
                         end) (Str.chars s).

(** [/\s{2,}/.test(s)] *)
Definition two_spaces_test (s : string) : bool :=
  Regex.search (fun l => match l with
                         | a :: b :: _ => is_space a && is_space b
                         | _ => false
                         end) (Str.chars s).

(** [/[A-Z]{5,}/.test(s)] *)
Definition five_upper_test (s : string) : bool :=
  Regex.search (fun l => match l with
                         | a :: b :: c :: d :: e :: _ =>
                             Str.is_upper a && Str.is_upper b && Str.is_upper c
                             && Str.is_upper d && Str.is_upper e
                         | _ => false
                         end) (Str.chars s).

(** The class of the link pattern: not white space and none of the eleven
    characters listed below. *)
Definition is_link_char (c : ascii) : bool :=
  negb (is_space c
        || existsb (Ascii.eqb c)
             ["<"; ">"; Parsers.quote; "{"; "}"; "|"; Parsers.backslash; "^"; "`"; "["; "]"]%char).

(** The length of a match of [(https?:\/\/[^\s...]+)] (flag [i]) that starts
    at the head of [l]. *)
Definition link_at (l : list ascii) : option nat :=
  let low := map Str.lower_char l in
  let scheme :=
    if Str.prefixb (Str.chars "https://") low then Some 8%nat
    else if Str.prefixb (Str.chars "http://") low then Some 7%nat
    else None in
  match scheme with
  | None => None
  | Some k =>
      match take_while is_link_char (skipn k l) with
      | [] => None
      | run => Some (k + List.length run)%nat
      end
  end.

(** The matches of the global search, left to right; [fuel] bounds the number
    of positions visited. *)
Fixpoint links_fuel (fuel : nat) (l : list ascii) : list string :=
  match fuel with
  | O => []
  | S f =>
      match l with
      | [] => []
      | _ :: l' =>
          match link_at l with
          | Some n => string_of_list_ascii (firstn n l) :: links_fuel f (skipn n l)
          | None => links_fuel f l'
          end
      end
  end.

(** [body.match(urlRegex) || []] *)
Definition links (body : string) : list string :=
  links_fuel (String.length body) (Str.chars body).

End MailRegex.

(** The filter of lines 111-123. *)
Definition is_suspicious_link (link : string) : bool :=
  let linkLower := Str.to_lower link in
  Regex.ipv4_test link
  || Str.includes linkLower "bit.ly"
  || Str.includes linkLower "tinyurl"
  || Str.includes linkLower "click"
  || Str.includes linkLower "verify"
  || Str.includes linkLower "secure"
  || Str.includes link "@"
  || (100 <? String.length link)%nat.

(** Lines 81-91: the brand loop, as the pair (isSpoofedDomain, impersonatedBrands). *)
Definition brand_step (fullText senderLower senderDomain : string)
    (st : bool * list string) (brand : string) : bool * list string :=
  let '(isSpoofedDomain, impersonatedBrands) := st in
  if Str.includes fullText brand || Str.includes senderLower brand then
    match lookup_domains brand legitimateDomains with
    | Some legit =>
        if negb (existsb (fun d => Str.ends_with senderDomain d) legit) then
          if Str.includes senderDomain brand
          then (true, (impersonatedBrands ++ [brand])%list)
          else st
        else st
    | None => st
    end
  else st.

Definition extractEmailFeatures (sender subject body : string) : EmailFeatures :=
  let fullText := Str.to_lower (subject ++ " " ++ body) in
  let senderLower := Str.to_lower sender in
  let senderDomain :=
    match MailRegex.domain_match (Str.chars senderLower) with
    | Some d => string_of_list_ascii d
    | None => EmptyString
    end in
  let senderUser :=
    string_of_list_ascii (fst (Parsers.break (fun c => Ascii.eqb c "@") (Str.chars senderLower))) in
  let '(isSpoofedDomain, impersonatedBrands) :=
    fold_left (brand_step fullText senderLower senderDomain) knownBrands (false, []) in
  let isSpoofedDomain :=
    if Str.includes senderDomain "-" && (2 <? Str.split_length "-" senderDomain)%nat
    then true else isSpoofedDomain in
  let isSpoofedDomain :=
    if MailRegex.three_digits_test senderDomain then true else isSpoofedDomain in
  let urgencyCount := List.length (filter (Str.includes fullText) urgencyKeywords) in
  let links := MailRegex.links body in
  let suspiciousLinks := filter is_suspicious_link links in
  let grammarScore := 100%Z in
  let grammarScore := if MailRegex.two_spaces_test body then (grammarScore - 10)%Z else grammarScore in
  let grammarScore := if MailRegex.five_upper_test body then (grammarScore - 15)%Z else grammarScore in
  let grammarScore := if Str.includes body "!!!" then (grammarScore - 10)%Z else grammarScore in
  let grammarScore :=
    if existsb (Str.includes (Str.to_lower body)) ["dear customer"; "dear user"; "dear valued"]
    then (grammarScore - 20)%Z else grammarScore in
  {| senderDomain := senderDomain;
     senderUser := senderUser;
     isSpoofedDomain := isSpoofedDomain;
     hasUrgencyKeywords := (0 <? urgencyCount)%nat;
     urgencyCount := urgencyCount;
     hasVerificationKeywords := existsb (Str.includes fullText) verificationKeywords;
     hasThreateningLanguage := existsb (Str.includes fullText) threateningKeywords;
     hasSuspiciousLinks := (0 <? List.length suspiciousLinks)%nat;
     linkCount := List.length links;
     suspiciousLinks := suspiciousLinks;
     hasAttachmentMentions :=
       existsb (Str.includes fullText) ["attach"; "download"; "open the file"; "see attached"];
     hasMoneyRelatedContent := existsb (Str.includes fullText) moneyKeywords;
     hasBrandImpersonation := (0 <? List.length impersonatedBrands)%nat;
     impersonatedBrands := impersonatedBrands;
     grammarScore := Z.max 0 grammarScore;
     sentimentScore := 50%Z |}.

Section EmailHandler.

Variable json_parse : string -> option json.
(** [String(v)] of a value that is not a string, as a template literal
    renders it. *)
Variable to_js_string : json -> string.

Definition template_string (v : option json) : string :=
  match v with
  | Some (JStr s) => s
  | Some w => to_js_string w
  | None => "undefined"
  end.

(** The POST handler; [req] is the result of [req.json()] ([None] when the
    request body is not JSON).  A sender or body that is not a string has no
    [toLowerCase] or [match] method: extraction throws after the key check. *)
Definition email_serve (req : option json) (env : Env) : Response :=
  catch_500
    (match req with
     | None => Throw "SyntaxError"
     | Some JNull => Throw "TypeError"
     | Some b =>
         let sender := Js.field b "sender" in
         let subject := Js.field b "subject" in
         let body := Js.field b "body" in
         if negb (Js.truthy_opt sender && Js.truthy_opt subject && Js.truthy_opt body)
         then Ret (RError 400 "Sender, subject, and body are required")
         else
           match sender, body with
           | Some (JStr s), Some (JStr t) =>
               email_analyze json_parse (extractEmailFeatures s (template_string subject) t) env
           | _, _ => _ <- require_api_key env ;; Throw "TypeError"
           end
     end).

End EmailHandler.

(* ------------------------------------------------------------------------- *)
(** * The rule-based scores as lists of rules

    [calculateRiskScore] and [calculateEmailRiskScore] apply one scoring rule
    after another. The same rules as a list (condition, points, threat). *)

Definition risk_add (cond : bool) (points : Q) (threat : string) (st : Q * list string) :=
  let '(score, threats) := st in
  if cond then (score + points, (threats ++ [threat])%list) else (score, threats).

Definition risk_steps (features : UrlFeatures) : list (bool * Q * string) := [
  (hasIpAddress features, 25, "IP address used instead of domain name");
  (negb (hasHttps features), 10, "Insecure HTTP connection");
  (hasSuspiciousTld features, 20, "Suspicious top-level domain detected");
  (hasSuspiciousKeywords features,
   qmin 25 (nat_Q (List.length (suspiciousKeywords features)) * 8),
   "Phishing keywords detected: " ++ String.concat ", " (firstn 3 (suspiciousKeywords features)));
  ((100 <? length features)%nat,
   qmin 15 ((nat_Q (length features) - 100) / 20 * 5), "Abnormally long URL");
  ((3 <? numSubdomains features)%nat,
   qmin 15 ((nat_Q (numSubdomains features) - 3) * 5), "Multiple subdomain levels detected");
  ((3 <? numHyphens features)%nat,
   qmin 10 ((nat_Q (numHyphens features) - 3) * 3), "Excessive hyphens in URL");
  ((0 <? numAtSymbols features)%nat, 20, "URL contains @ symbol (potential redirect attack)");
  (hasEncodedChars features, 10, "URL contains encoded characters");
  (hasPortNumber features, 15, "Non-standard port number in URL");
  (entropy_gt_4_5 (entropy features), 10, "High entropy domain (potentially auto-generated)");
  (Num.gt (digitRatio features) (Double.of_Q (3 # 10)), 10, "High ratio of digits in URL")].

Definition run_risk (steps : list (bool * Q * string)) : Q * list string :=
  fold_left (fun st '(c, p, t) => risk_add c p t st) steps (0%Q, []).

Definition email_add (cond : bool) (points : Z) (threat : string) (st : Z * list string) :=
  let '(score, threats) := st in
  if cond then ((score + points)%Z, (threats ++ [threat])%list) else (score, threats).

Definition email_steps (features : EmailFeatures) : list (bool * Z * string) := [
  (isSpoofedDomain features, 30%Z, "Spoofed sender domain detected: " ++ senderDomain features);
  (hasBrandImpersonation features, 25%Z,
   "Brand impersonation attempt: " ++ String.concat ", " (impersonatedBrands features));
  (hasUrgencyKeywords features, (Z.min 20 (Z.of_nat (urgencyCount features) * 5))%Z,
   "Urgency manipulation detected (" ++ nat_to_string (urgencyCount features) ++ " keywords)");
  (hasVerificationKeywords features, 15%Z, "Credential harvesting language detected");
  (hasThreateningLanguage features, 20%Z, "Threatening/fear-based language detected");
  (hasSuspiciousLinks features, 20%Z,
   "Suspicious links found: " ++ nat_to_string (List.length (suspiciousLinks features)));
  (hasMoneyRelatedContent features && (hasUrgencyKeywords features || hasThreateningLanguage features),
   15%Z, "Financial urgency pressure tactics");
  ((grammarScore features <? 60)%Z, 10%Z, "Poor grammar quality (common in phishing)")].

Definition run_email (steps : list (bool * Z * string)) : Z * list string :=
  fold_left (fun st '(c, p, t) => email_add c p t st) steps (0%Z, []).

(** The condition under which the brand loop of lines 81-91 records [brand]. *)
Definition brand_flagged (fullText senderLower senderDomain : string) (brand : string) : bool :=
  (Str.includes fullText brand || Str.includes senderLower brand)
  && match lookup_domains brand legitimateDomains with
     | Some legit =>
         negb (existsb (fun d => Str.ends_with senderDomain d) legit)
         && Str.includes senderDomain brand
     | None => false
     end.

(* ------------------------------------------------------------------------- *)
(** * Sample requests and gateway answers *)

Module Samples.

(** A JSON string literal (quote marks inside [s] are escaped). *)
Fixpoint escape_quotes (l : list ascii) : string :=
  match l with
  | [] => EmptyString
  | c :: l' =>
      if Ascii.eqb c Parsers.quote then String Parsers.backslash (String c (escape_quotes l'))
      else String c (escape_quotes l')
  end.
Definition js (s : string) : string :=
  String Parsers.quote (escape_quotes (Str.chars s) ++ String Parsers.quote EmptyString).

(** A chat-completion body whose first choice has the message [content]. *)
Definition gateway_body (content : string) : string :=
  "{" ++ js "choices" ++ ": [{" ++ js "message" ++ ": {" ++ js "content" ++ ": " ++ js content ++ "}}]}".

Definition random_bytes : list Z :=
  [18; 52; 86; 120; 154; 188; 222; 240; 1; 35; 69; 103; 137; 171; 205; 239;
   15; 30; 45; 60; 75; 90; 105; 120; 135; 150; 165; 180; 195; 210; 225; 255]%Z.

Definition env_with (f : FetchResult) : Env :=
  {| env_api_key := Some "lovable-api-key"; env_fetch := f;
     env_random := random_bytes; env_now := "2026-10-14T09:30:00.000Z" |}.

(** The gateway answers 200 with this message content. *)
Definition oracle_says (content : string) : Env :=
  env_with (FetchResolves true 200 (gateway_body content)).

(** The gateway answers with a server error. *)
Definition oracle_down : Env := env_with (FetchResolves false 503 "Service Unavailable").

Definition url_request (u : string) : option json := Some (JObj [("url", JStr u)]).

Definition verdict_json (isPhishing : string) (confidence : string) : string :=
  "{" ++ js "isPhishing" ++ ": " ++ isPhishing ++ ", " ++ js "confidence" ++ ": " ++ confidence ++ "}".

Definition ten_threats_json : string :=
  "{" ++ js "isPhishing" ++ ": true, " ++ js "confidence" ++ ": 90, "
  ++ js "additionalThreats" ++ ": ["
  ++ String.concat ", " (map js ["t1"; "t2"; "t3"; "t4"; "t5"; "t6"; "t7"; "t8"; "t9"; "t10"])
  ++ "]}".

(** The URL handler with the concrete parsers. *)
Definition url_serve_lite : option json -> Env -> Response :=
  url_serve Parsers.whatwg_lite Parsers.json_lite.

(** PayPal's official domains (email analyzer, lines 58-66). *)
Definition legitimateDomains_paypal : list string := ["paypal.com"; "paypal.co.uk"].

End Samples.

(* ========================================================================= *)
(** * Properties *)

Import Samples.

(** ** Rounding to doubles is monotone *)

Module DoubleFacts.
Import Double.
#[local] Transparent Double.of_Q.

Lemma pow2_pos (k : Z) : 0 < pow2 k.
Proof. apply Qpower_0_lt. reflexivity. Qed.

Lemma pow2_plus (a b : Z) : pow2 (a + b) == pow2 a * pow2 b.
Proof. unfold pow2. apply Qpower_plus. discriminate. Qed.

Lemma pow2_le (a b : Z) : (a <= b)%Z -> pow2 a <= pow2 b.
Proof. intros H. apply Qpower_le_compat_l; [exact H | unfold Qle; simpl; lia]. Qed.

Lemma pow2_lt (a b : Z) : (a < b)%Z -> pow2 a < pow2 b.
Proof. intros H. apply Qpower_lt_compat_l; [exact H | reflexivity]. Qed.

Lemma pow2_lt_inv (a b : Z) : pow2 a < pow2 b -> (a < b)%Z.
Proof. intros H. apply (Qpower_lt_compat_l_inv (2 # 1)); [exact H | reflexivity]. Qed.

Lemma pow2_Z (k : Z) : (0 <= k)%Z -> pow2 k == inject_Z (2 ^ k).
Proof. intros H. unfold pow2. rewrite Zpower_Qpower by exact H. reflexivity. Qed.

Lemma exponent_spec (x : Q) : 0 < x -> pow2 (exponent x) <= x < pow2 (exponent x + 1).
Proof.
  intros Hx. destruct x as [n d].
  assert (Hn : (0 < n)%Z) by (unfold Qlt in Hx; simpl in Hx; lia).
  unfold exponent; cbn [Qnum Qden].
  set (ln := Z.log2 n). set (ld := Z.log2 (Zpos d)).
  destruct (Z.log2_spec n Hn) as [Hn1 Hn2].
  destruct (Z.log2_spec (Zpos d) eq_refl) as [Hd1 Hd2].
  fold ln in Hn1, Hn2. fold ld in Hd1, Hd2.
  assert (Hln : (0 <= ln)%Z) by apply Z.log2_nonneg.
  assert (Hld : (0 <= ld)%Z) by apply Z.log2_nonneg.
  assert (Eq : n # d == inject_Z n / inject_Z (Zpos d)).
  { unfold Qdiv, Qeq; simpl. lia. }
  assert (Hdpos : 0 < inject_Z (Zpos d)) by reflexivity.
  (* x < 2^(ln - ld + 1) *)
  assert (Hup : n # d < pow2 (ln - ld + 1)).
  { rewrite Eq. apply Qlt_shift_div_r; [exact Hdpos|].
    apply Qlt_le_trans with (pow2 (ln - ld + 1) * pow2 ld).
    - rewrite <- pow2_plus. replace (ln - ld + 1 + ld)%Z with (Z.succ ln) by lia.
      rewrite pow2_Z by lia. rewrite <- Zlt_Qlt. exact Hn2.
    - apply Qmult_le_l; [apply pow2_pos|]. rewrite pow2_Z by lia. rewrite <- Zle_Qle. exact Hd1. }
  (* 2^(ln - ld - 1) < x *)
  assert (Hlo : pow2 (ln - ld - 1) < n # d).
  { rewrite Eq. apply Qlt_shift_div_l; [exact Hdpos|].
    apply Qlt_le_trans with (pow2 (ln - ld - 1) * pow2 (Z.succ ld)).
    - apply Qmult_lt_l; [apply pow2_pos|]. rewrite pow2_Z by lia. rewrite <- Zlt_Qlt. exact Hd2.
    - rewrite <- pow2_plus. replace (ln - ld - 1 + Z.succ ld)%Z with ln by lia.
      rewrite pow2_Z by lia. rewrite <- Zle_Qle. exact Hn1. }
  destruct (Qle_bool (pow2 (ln - ld)) (n # d)) eqn:E.
  - apply Qle_bool_iff in E. split; [exact E | exact Hup].
  - assert (E' : ~ pow2 (ln - ld) <= n # d) by (intros H; apply Qle_bool_iff in H; congruence).
    apply Qnot_le_lt in E'. split.
    + apply Qlt_le_weak. exact Hlo.
    + replace (ln - ld - 1 + 1)%Z with (ln - ld)%Z by lia. exact E'.
Qed.

Lemma exponent_mono (x y : Q) : 0 < x -> x <= y -> (exponent x <= exponent y)%Z.
Proof.
  intros Hx Hxy.
  destruct (exponent_spec x Hx) as [H1 _].
  destruct (exponent_spec y (Qlt_le_trans _ _ _ Hx Hxy)) as [_ H2].
  assert (H : pow2 (exponent x) < pow2 (exponent y + 1)).
  { apply Qle_lt_trans with x; [exact H1|]. apply Qle_lt_trans with y; assumption. }
  apply pow2_lt_inv in H. lia.
Qed.

Lemma rne_bounds (t : Q) : (Qfloor t <= rne t <= Qfloor t + 1)%Z.
Proof.
  unfold rne. destruct (Qcompare _ _); [destruct (Z.even _)|..]; lia.
Qed.

Lemma rne_Z (n : Z) : rne (inject_Z n) = n.
Proof.
  unfold rne. rewrite Qfloor_Z.
  replace (Qcompare (inject_Z n - inject_Z n) (1 # 2)) with Lt; [reflexivity|].
  symmetry. apply (proj1 (Qlt_alt _ _)). lra.
Qed.

Lemma frac_bounds (t : Q) : 0 <= t - inject_Z (Qfloor t) < 1.
Proof.
  pose proof (Qfloor_le t). pose proof (Qlt_floor t).
  rewrite inject_Z_plus in H0. change (inject_Z 1) with 1 in H0. split; lra.
Qed.

Lemma rne_mono (t u : Q) : t <= u -> (rne t <= rne u)%Z.
Proof.
  intros H.
  pose proof (Qfloor_resp_le t u H) as Hf.
  pose proof (rne_bounds t) as Ht. pose proof (rne_bounds u) as Hu.
  destruct (Z.eq_dec (Qfloor t) (Qfloor u)) as [E|E]; [|lia].
  unfold rne. rewrite <- E. set (f := Qfloor t).
  assert (Hfr : t - inject_Z f <= u - inject_Z f) by (unfold f; lra).
  destruct (Qcompare_spec (t - inject_Z f) (1 # 2)) as [Et|Et|Et];
  destruct (Qcompare_spec (u - inject_Z f) (1 # 2)) as [Eu|Eu|Eu];
  try (destruct (Z.even f)); try lia; exfalso; lra.
Qed.

Lemma rne_ge (n : Z) (t : Q) : inject_Z n <= t -> (n <= rne t)%Z.
Proof. intros H. rewrite <- (rne_Z n). apply rne_mono. exact H. Qed.

Lemma rne_le (n : Z) (t : Q) : t <= inject_Z n -> (rne t <= n)%Z.
Proof. intros H. rewrite <- (rne_Z n). apply rne_mono. exact H. Qed.

Lemma round_pos_eq (x : Q) :
  round_pos x == inject_Z (rne (x / pow2 (quantum x))) * pow2 (quantum x).
Proof. unfold round_pos. apply Qred_correct. Qed.

Lemma div_pow2_le (x y : Q) (k : Z) : x <= y -> x / pow2 k <= y / pow2 k.
Proof.
  intros H. apply Qmult_le_r with (pow2 k); [apply pow2_pos|].
  unfold Qdiv. rewrite <- !Qmult_assoc, !(Qmult_comm (/ _)), !Qmult_inv_r
    by (apply Qnot_eq_sym, Qlt_not_eq, pow2_pos).
  rewrite !Qmult_1_r. exact H.
Qed.

Lemma pow2_div (a k : Z) : pow2 a / pow2 k == pow2 (a - k).
Proof.
  apply Qmult_inj_r with (pow2 k); [apply Qnot_eq_sym, Qlt_not_eq, pow2_pos|].
  unfold Qdiv. rewrite <- Qmult_assoc, (Qmult_comm (/ _)), Qmult_inv_r
    by (apply Qnot_eq_sym, Qlt_not_eq, pow2_pos).
  rewrite Qmult_1_r, <- pow2_plus. replace (a - k + k)%Z with a by lia. reflexivity.
Qed.

Lemma round_pos_nonneg (x : Q) : 0 <= x -> 0 <= round_pos x.
Proof.
  intros H. rewrite round_pos_eq.
  apply Qmult_le_0_compat; [|apply Qlt_le_weak, pow2_pos].
  change 0 with (inject_Z 0). rewrite <- Zle_Qle. apply rne_ge.
  change (inject_Z 0) with 0. apply Qle_shift_div_l; [apply pow2_pos|]. lra.
Qed.

Lemma round_pos_mono (x y : Q) : 0 < x -> x <= y -> round_pos x <= round_pos y.
Proof.
  intros Hx Hxy.
  assert (Hy : 0 < y) by (apply Qlt_le_trans with x; assumption).
  pose proof (exponent_mono x y Hx Hxy) as He.
  destruct (exponent_spec x Hx) as [Hx1 Hx2].
  destruct (exponent_spec y Hy) as [Hy1 Hy2].
  assert (Hq : (quantum x <= quantum y)%Z) by (unfold quantum; lia).
  rewrite !round_pos_eq.
  destruct (Z.eq_dec (quantum x) (quantum y)) as [E|E].
  - rewrite <- E. apply Qmult_le_compat_r; [|apply Qlt_le_weak, pow2_pos].
    rewrite <- Zle_Qle. apply rne_mono. apply div_pow2_le. exact Hxy.
  - set (N := Z.max (exponent x + 1) (quantum x)).
    assert (HqyE : quantum y = (exponent y - 52)%Z) by (unfold quantum in *; lia).
    assert (HN : (N <= exponent y)%Z) by (unfold N, quantum in *; lia).
    apply Qle_trans with (pow2 N).
    + assert (Hr : (rne (x / pow2 (quantum x)) <= 2 ^ (N - quantum x))%Z).
      { apply rne_le. rewrite <- pow2_Z by (unfold N; lia). rewrite <- pow2_div.
        apply div_pow2_le. apply Qle_trans with (pow2 (exponent x + 1)).
        - apply Qlt_le_weak. exact Hx2.
        - apply pow2_le. unfold N; lia. }
      apply Qle_trans with (inject_Z (2 ^ (N - quantum x)) * pow2 (quantum x)).
      * apply Qmult_le_compat_r; [|apply Qlt_le_weak, pow2_pos]. rewrite <- Zle_Qle. exact Hr.
      * rewrite <- pow2_Z by (unfold N; lia). rewrite <- pow2_plus.
        replace (N - quantum x + quantum x)%Z with N by lia. apply Qle_refl.
    + assert (Hr : (2 ^ 52 <= rne (y / pow2 (quantum y)))%Z).
      { apply rne_ge. replace (2 ^ 52)%Z with (2 ^ (exponent y - quantum y))%Z by (rewrite HqyE; f_equal; lia).
        rewrite <- pow2_Z by lia. rewrite <- pow2_div. apply div_pow2_le. exact Hy1. }
      apply Qle_trans with (pow2 (exponent y)); [apply pow2_le; exact HN|].
      replace (exponent y) with (52 + quantum y)%Z by lia.
      rewrite pow2_plus, (pow2_Z 52) by lia.
      apply Qmult_le_compat_r; [|apply Qlt_le_weak, pow2_pos]. rewrite <- Zle_Qle. exact Hr.
Qed.

Lemma of_Q_mono (x y : Q) : x <= y -> leq (of_Q x) (of_Q y).
Proof.
  intros H. unfold of_Q.
  destruct (Qcompare_spec x 0) as [Ex|Ex|Ex]; destruct (Qcompare_spec y 0) as [Ey|Ey|Ey];
    try (exfalso; lra).
  - cbn [leq]. lra.
  - destruct (Qle_bool overflow (round_pos y)); cbn [leq]; trivial.
    pose proof (round_pos_nonneg y). lra.
  - destruct (Qle_bool overflow (round_pos (- x))); cbn [leq]; trivial.
    pose proof (round_pos_nonneg (- x)). lra.
  - assert (Hm : round_pos (- y) <= round_pos (- x)) by (apply round_pos_mono; lra).
    pose proof (round_pos_nonneg (- y)) as Hn.
    destruct (Qle_bool overflow (round_pos (- x))) eqn:Ox;
    destruct (Qle_bool overflow (round_pos (- y))) eqn:Oy; cbn [leq]; trivial.
    + apply Qle_bool_iff in Oy. apply not_true_iff_false in Ox. apply Ox, Qle_bool_iff. lra.
    + lra.
  - destruct (Qle_bool overflow (round_pos (- x))); destruct (Qle_bool overflow (round_pos y)); cbn [leq]; trivial.
    pose proof (round_pos_nonneg (- x)). pose proof (round_pos_nonneg y). lra.
  - assert (Hm : round_pos x <= round_pos y) by (apply round_pos_mono; lra).
    destruct (Qle_bool overflow (round_pos x)) eqn:Ox;
    destruct (Qle_bool overflow (round_pos y)) eqn:Oy; cbn [leq]; trivial.
    apply Qle_bool_iff in Ox. apply not_true_iff_false in Oy. apply Oy, Qle_bool_iff. lra.
Qed.

Lemma of_Q_ge (lo x : Q) :
  of_Q lo = JFin lo -> lo <= x ->
  of_Q x = JInf false \/ exists q, of_Q x = JFin q /\ lo <= q.
Proof.
  intros Hlo H. pose proof (of_Q_mono lo x H) as M. rewrite Hlo in M.
  destruct (of_Q x) as [q|[|]|]; cbn [leq] in M; try contradiction; eauto.
Qed.

Lemma of_Q_le (hi x : Q) :
  of_Q hi = JFin hi -> x <= hi ->
  of_Q x = JInf true \/ exists q, of_Q x = JFin q /\ q <= hi.
Proof.
  intros Hhi H. pose proof (of_Q_mono x hi H) as M. rewrite Hhi in M.
  destruct (of_Q x) as [q|[|]|]; cbn [leq] in M; try contradiction; eauto.
Qed.

Lemma of_Q_between (lo hi x : Q) :
  of_Q lo = JFin lo -> of_Q hi = JFin hi -> lo <= x <= hi ->
  exists q, of_Q x = JFin q /\ lo <= q <= hi.
Proof.
  intros Hlo Hhi [H1 H2]. pose proof (of_Q_mono lo x H1) as M1. pose proof (of_Q_mono x hi H2) as M2.
  rewrite Hlo in M1. rewrite Hhi in M2.
  destruct (of_Q x) as [q|[|]|]; cbn [leq] in M1, M2; try contradiction; eauto.
Qed.

Lemma of_Q_not_nan (x : Q) : of_Q x <> JNaN.
Proof. unfold of_Q. destruct (Qcompare x 0); try destruct (Qle_bool _ _); discriminate. Qed.

(** Integers of small magnitude are doubles. *)
Lemma of_Q_int_fixed :
  of_Q (-50) = JFin (-50) /\ of_Q 0 = JFin 0 /\ of_Q 45 = JFin 45 /\ of_Q 50 = JFin 50 /\
  of_Q 75 = JFin 75 /\ of_Q 98 = JFin 98 /\ of_Q 100 = JFin 100.
Proof. repeat split; vm_compute; reflexivity. Qed.

End DoubleFacts.


(** C1 (counterexample): the URL analyzer has no brand-spoof override.  The URL
    below contains the brand keyword [paypal], its host is not one of PayPal's
    official domains, and with an oracle answer "not phishing, confidence 100"
    the verdict is [safe]. *)
Lemma C1_url_brand_spoof_can_be_safe :
  Str.includes "https://paypal.secure-login.example.com/" "paypal" = true /\
  domainFromUrl Parsers.whatwg_lite "https://paypal.secure-login.example.com/"
    = "paypal.secure-login.example.com" /\
  forallb (fun d => negb (Str.ends_with "paypal.secure-login.example.com" d)) legitimateDomains_paypal = true /\
  exists r,
    url_serve_lite (url_request "https://paypal.secure-login.example.com/")
                   (oracle_says (verdict_json "false" "100")) = ROk r /\
    r_result r = "safe".
Proof.
  split; [reflexivity|]. split; [reflexivity|]. split; [reflexivity|].
  eexists; split; [vm_compute; reflexivity | reflexivity].
Qed.

(** C2 (code defect): the URL analyzer reports a confidence above 100.  For
    [https://example.com] and the oracle answer "phishing, confidence 1", the
    verdict is [suspicious] and the confidence is 100 - 30 + 50 = 120. *)
Lemma C2_url_confidence_exceeds_100 :
  exists r,
    url_serve_lite (url_request "https://example.com") (oracle_says (verdict_json "true" "1")) = ROk r /\
    r_result r = "suspicious" /\ r_confidence r = JFin 120.
Proof. eexists; split; [vm_compute; reflexivity | split; reflexivity]. Qed.

(** C3 (counterexample): an oracle answer whose content does not parse is not
    handled by the rule-based path: the neutral signal (aiScore 25) is
    combined and the method tag stays [hybrid-ai]. *)
Lemma C3_unparsable_answer_stays_hybrid :
  exists r,
    url_serve_lite (url_request "https://example.com") (oracle_says "not json {oops}") = ROk r /\
    r_method r = "hybrid-ai" /\ r_aiScore r = Some (Num.of_Z 25).
Proof. eexists; split; [vm_compute; reflexivity | split; reflexivity]. Qed.

(** C5 (code defect): a positive oracle call with confidence 0 is read as
    confidence 50 ([0 || 50]) and mapped to 75, not to 50 + 0/2 = 50; the
    combined score is 45 instead of 30. *)
Lemma C5_zero_confidence_maps_to_75 :
  exists r,
    url_serve_lite (url_request "https://example.com") (oracle_says (verdict_json "true" "0")) = ROk r /\
    r_aiScore r = Some (Num.of_Z 75) /\ r_combinedScore r = Some (Num.of_Z 45).
Proof. eexists; split; [vm_compute; reflexivity | split; reflexivity]. Qed.


(** C7 (counterexample): a URL that triggers no rule and is on no known-safe
    list is reported [safe], not [unknown] (here with the gateway down). *)
Lemma C7_no_signal_url_is_safe :
  hasSafeDomain Parsers.whatwg_lite "https://example.com" = false /\
  exists r,
    url_serve_lite (url_request "https://example.com") oracle_down = ROk r /\
    r_ruleBasedScore r = Some (JFin 0) /\ r_threatIndicators r = [] /\ r_result r = "safe".
Proof. split; [reflexivity|]. eexists; split; [vm_compute; reflexivity | repeat split]. Qed.

(** C8 (code defect): the URL analyzer does not truncate its threat
    indicators: ten distinct extra threats from the oracle give ten. *)
Lemma C8_url_indicators_not_truncated :
  exists r,
    url_serve_lite (url_request "https://example.com") (oracle_says ten_threats_json) = ROk r /\
    List.length (r_threatIndicators r) = 10%nat.
Proof. eexists; split; [vm_compute; reflexivity | reflexivity]. Qed.

(** C9 (counterexample): for the empty string the digit ratio is 0/0, NaN. *)
Lemma C9_empty_string_digit_ratio_nan :
  digitRatio (extractUrlFeatures Parsers.whatwg_lite EmptyString) = JNaN.
Proof. reflexivity. Qed.

(** C10 (code defect): the rule-based fallback response carries no integrity
    tag (nor a timestamp), while the hybrid response does. *)
Lemma C10_fallback_has_no_tag :
  exists r,
    url_serve_lite (url_request "https://example.com") oracle_down = ROk r /\
    r_method r = "rule-based" /\ r_blockchainHash r = None.
Proof. eexists; split; [vm_compute; reflexivity | split; reflexivity]. Qed.

(* ------------------------------------------------------------------------- *)
(** ** Logo heuristic *)

Section LogoProperties.

Variable parse_url : string -> option UrlParts.

(** The PayPal rule lifts the score to at least 92, whatever fired before. *)
Lemma calcLogoScore_paypal_floor (input : LogoInput) :
  str_truthy (imageUrl input) = true ->
  Str.includes (Str.to_lower (str_or_empty (imageUrl input))) "paypal" = true ->
  Str.includes (domainFromUrl parse_url (str_or_empty (imageUrl input))) "paypal" = false ->
  Str.includes (str_or_empty (imageUrl input)) "paypal.com" = false ->
  (92 <= fst (calcLogoScore parse_url input))%Z.
Proof.
  intros Ht Hl Hd Hc. unfold calcLogoScore. cbv zeta.
  rewrite Ht, Hl, Hd, Hc. simpl andb; simpl orb; simpl negb.
  repeat match goal with |- context [if ?b then _ else _] => destruct b end;
    simpl; lia.
Qed.

End LogoProperties.

(** C1 (amended): the only brand-spoof override is the logo heuristic's PayPal
    rule.  An image URL whose lower-cased text contains [paypal], whose host
    does not contain [paypal] and which does not contain [paypal.com] is
    reported [phishing] with a probability between 92 and 95, whatever the
    other rules give. *)
Theorem C1_logo_paypal_override (parse_url : string -> option UrlParts) (input : LogoInput) :
  str_truthy (imageUrl input) = true ->
  Str.includes (Str.to_lower (str_or_empty (imageUrl input))) "paypal" = true ->
  Str.includes (domainFromUrl parse_url (str_or_empty (imageUrl input))) "paypal" = false ->
  Str.includes (str_or_empty (imageUrl input)) "paypal.com" = false ->
  verdict (calcLogoHeuristic parse_url input) = "phishing" /\
  (92 <= probability (calcLogoHeuristic parse_url input) <= 95)%Z.
Proof.
  intros Ht Hl Hd Hc.
  pose proof (calcLogoScore_paypal_floor parse_url input Ht Hl Hd Hc) as Hf.
  unfold calcLogoHeuristic. cbv zeta.
  destruct (calcLogoScore parse_url input) as [score iss]. simpl in Hf.
  replace (score =? 0)%Z with false by (symmetry; apply Z.eqb_neq; lia).
  rewrite andb_false_r. simpl.
  replace (30 <? Z.min 95 score)%Z with true by (symmetry; apply Z.ltb_lt; lia).
  split; [reflexivity | lia].
Qed.

Lemma C1_logo_paypal_override_witness :
  verdict (calcLogoHeuristic Parsers.whatwg_lite
             {| imageUrl := Some "https://evil.example.net/static/PayPal-logo.png"; base64Image := None |})
  = "phishing".
Proof.
  apply (C1_logo_paypal_override Parsers.whatwg_lite
           {| imageUrl := Some "https://evil.example.net/static/PayPal-logo.png"; base64Image := None |});
  reflexivity.
Defined.


(* ------------------------------------------------------------------------- *)
(** ** Verdict thresholds *)

Lemma threshold_result_cases (x : jsnum) :
  threshold_result x = "phishing" \/ threshold_result x = "suspicious" \/ threshold_result x = "safe".
Proof.
  unfold threshold_result.
  destruct (Num.ge x (JFin 50)); [auto|]. destruct (Num.ge x (JFin 25)); auto.
Qed.

Lemma threshold_result_not_unknown (x : jsnum) : threshold_result x <> "unknown".
Proof.
  destruct (threshold_result_cases x) as [H | [H | H]]; rewrite H; discriminate.
Qed.

Section UrlProperties.

Variable parse_url : string -> option UrlParts.
Variable json_parse : string -> option json.

(** Every successful URL analysis reports the threshold verdict of some score. *)
Lemma url_analyze_threshold (url : string) (env : Env) (r : Result) :
  url_analyze parse_url json_parse url env = Ret (ROk r) ->
  exists x, r_result r = threshold_result x.
Proof.
  unfold url_analyze.
  destruct (require_api_key env); simpl; [|discriminate].
  destruct (calculateRiskScore (extractUrlFeatures parse_url url)) as [s t].
  destruct (env_fetch env) as [|ok status body]; [discriminate|].
  destruct ok; simpl.
  - destruct (json_parse body) as [aiData|]; [|discriminate].
    destruct (gateway_content aiData) as [c|]; simpl; [|discriminate].
    unfold url_hybrid_result.
    destruct (spread_if_truthy _); cbn [bind]; [|discriminate].
    intros H; injection H as <-; eexists; reflexivity.
  - intros H; inversion H; subst; eexists; reflexivity.
Qed.

Lemma url_serve_threshold (body : option json) (env : Env) (r : Result) :
  url_serve parse_url json_parse body env = ROk r -> exists x, r_result r = threshold_result x.
Proof.
  unfold url_serve, catch_500.
  destruct body as [b|]; [|discriminate].
  destruct b; try discriminate;
    repeat match goal with
           | |- context [Js.field ?b "url"] => destruct (Js.field b "url") as [[]|]
           end; try discriminate;
    repeat match goal with
           | |- context [String.eqb ?u EmptyString] => destruct (String.eqb u EmptyString)
           end; try discriminate;
    match goal with
    | |- context [url_analyze ?p ?j ?u ?e] =>
        destruct (url_analyze p j u e) as [[r'|]|] eqn:E; intros H; try discriminate;
        inversion H; subst; eapply url_analyze_threshold; exact E
    end.
Qed.

End UrlProperties.

Lemma email_analyze_threshold (json_parse : string -> option json) (features : EmailFeatures)
    (env : Env) (r : Result) :
  email_analyze json_parse features env = Ret (ROk r) -> exists x, r_result r = threshold_result x.
Proof.
  unfold email_analyze.
  destruct (require_api_key env) as [[]|e]; cbn [bind]; [|discriminate].
  destruct (calculateEmailRiskScore features) as [s t].
  destruct (env_fetch env) as [|ok st body]; [discriminate|].
  destruct (email_ai_analysis json_parse ok body) as [ai|e]; cbn [bind]; [|discriminate].
  destruct (spread_if_truthy (Js.field ai "tactics")); cbn [bind]; [|discriminate].
  destruct (spread_if_truthy (Js.field ai "redFlags")); cbn [bind]; [|discriminate].
  intros H; injection H as <-. eexists; reflexivity.
Qed.

Lemma email_serve_threshold (json_parse : string -> option json) (to_js_string : json -> string)
    (req : option json) (env : Env) (r : Result) :
  email_serve json_parse to_js_string req env = ROk r -> exists x, r_result r = threshold_result x.
Proof.
  unfold email_serve, catch_500.
  destruct req as [b|]; [|discriminate].
  destruct b as [| | | | |l]; try discriminate; cbv zeta;
    (destruct (negb _); [discriminate|]);
    (match goal with |- context [Js.field ?b "sender"] => destruct (Js.field b "sender") as [[]|] end);
    try (match goal with |- context [Js.field ?b "body"] => destruct (Js.field b "body") as [[]|] end);
    try (destruct (require_api_key env); cbn [bind]; discriminate).
  all: match goal with
       | |- context [email_analyze ?j ?f ?e] =>
           destruct (email_analyze j f e) as [[r'|]|] eqn:E; intros H; try discriminate;
           injection H as <-; eapply email_analyze_threshold; exact E
       end.
Qed.


(** C4: the verdict is [phishing] from a combined score of 50 on, [suspicious]
    from 25 up to 50, [safe] below 25 (both boundaries on the [>=] side); the
    hybrid URL result, the URL rule-based fallback (on the rule score) and the
    email result all take their verdict from this function. *)
Theorem C4_verdict_thresholds :
  (forall q : Q, (50 <= q)%Q -> threshold_result (JFin q) = "phishing") /\
  (forall q : Q, (25 <= q)%Q -> (q < 50)%Q -> threshold_result (JFin q) = "suspicious") /\
  (forall q : Q, (q < 25)%Q -> threshold_result (JFin q) = "safe") /\
  (forall url ruleBasedScore threats aiAnalysis env r,
     url_hybrid_result url ruleBasedScore threats aiAnalysis env = Ret (ROk r) ->
     r_result r = threshold_result (combined_score ruleBasedScore (ai_score aiAnalysis))) /\
  (forall ruleBasedScore threats r,
     url_rule_based_result ruleBasedScore threats = ROk r ->
     r_result r = threshold_result (JFin ruleBasedScore)) /\
  (forall json_parse features env r,
     email_analyze json_parse features env = Ret (ROk r) ->
     exists aiAnalysis,
       r_result r = threshold_result
                      (combined_score (inject_Z (fst (calculateEmailRiskScore features)))
                                      (ai_score aiAnalysis))).
Proof.
  split; [|split; [|split; [|split; [|split]]]].
  - intros q H. unfold threshold_result; simpl.
    replace (Qle_bool 50 q) with true by (symmetry; apply Qle_bool_iff; exact H). reflexivity.
  - intros q H1 H2. unfold threshold_result; simpl.
    replace (Qle_bool 50 q) with false
      by (symmetry; apply not_true_iff_false; rewrite Qle_bool_iff; apply Qlt_not_le; exact H2).
    replace (Qle_bool 25 q) with true by (symmetry; apply Qle_bool_iff; exact H1). reflexivity.
  - intros q H. unfold threshold_result; simpl.
    replace (Qle_bool 50 q) with false
      by (symmetry; apply not_true_iff_false; rewrite Qle_bool_iff; apply Qlt_not_le;
          apply Qlt_trans with 25; [exact H | reflexivity]).
    replace (Qle_bool 25 q) with false
      by (symmetry; apply not_true_iff_false; rewrite Qle_bool_iff; apply Qlt_not_le; exact H).
    reflexivity.
  - intros url s t ai env r. unfold url_hybrid_result.
    destruct (spread_if_truthy _); simpl; [|discriminate].
    intros H; inversion H; reflexivity.
  - intros s t r H. inversion H; reflexivity.
  - intros jp features env r. unfold email_analyze.
    destruct (require_api_key env); simpl; [|discriminate].
    destruct (calculateEmailRiskScore features) as [s t]; simpl.
    destruct (env_fetch env) as [|ok status body]; [discriminate|].
    destruct (email_ai_analysis jp ok body) as [ai|]; simpl; [|discriminate].
    destruct (spread_if_truthy (Js.field ai "tactics")); simpl; [|discriminate].
    destruct (spread_if_truthy (Js.field ai "redFlags")); simpl; [|discriminate].
    intros H; inversion H; exists ai; reflexivity.
Qed.

Lemma C4_verdict_thresholds_witness :
  threshold_result (JFin 50) = "phishing" /\ threshold_result (JFin 25) = "suspicious".
Proof.
  destruct C4_verdict_thresholds as [Hp [Hs _]].
  split; [apply Hp | apply Hs]; unfold Qle, Qlt; simpl; lia.
Defined.

(** The weights are doubles: a rule-based score of 1 with an AI score of 41
    combines to 24.999999999999996, not 25, and the verdict is [safe]. *)
Lemma combined_score_double_rounding :
  combined_score 1 (JFin 41) = JFin (7036874417766399 # 281474976710656) /\
  threshold_result (combined_score 1 (JFin 41)) = "safe".
Proof. split; vm_compute; reflexivity. Qed.

(** The neutral analysis a 2xx answer falls back to. *)
Lemma url_ai_analysis_unparsable (json_parse : string -> option json) (content : string) :
  (forall m, brace_match content = Some m -> json_parse m = None) ->
  url_ai_analysis json_parse (JStr content) = JObj [] \/
  url_ai_analysis json_parse (JStr content) = url_neutral_analysis.
Proof.
  intros H. unfold url_ai_analysis.
  destruct (brace_match content) as [m|]; [|left; reflexivity].
  rewrite (H m eq_refl). right; reflexivity.
Qed.

(** C3 (amended): on a non-2xx gateway answer the URL analysis completes with
    the rule-based result alone (method [rule-based]); on a 2xx answer whose
    content holds no parsable JSON object it completes with the neutral
    signal (aiScore 25) under method [hybrid-ai]; on a non-2xx answer the email
    analysis completes with its default signal (aiScore 25) under method
    [hybrid-email-ai]. *)
Theorem C3_oracle_failure_fallbacks (parse_url : string -> option UrlParts)
    (json_parse : string -> option json) :
  (forall url env status body,
     str_truthy (env_api_key env) = true ->
     env_fetch env = FetchResolves false status body ->
     exists r,
       url_analyze parse_url json_parse url env = Ret (ROk r) /\
       ROk r = url_rule_based_result (fst (calculateRiskScore (extractUrlFeatures parse_url url)))
                                     (snd (calculateRiskScore (extractUrlFeatures parse_url url))) /\
       r_method r = "rule-based") /\
  (forall url env status body aiData content,
     str_truthy (env_api_key env) = true ->
     env_fetch env = FetchResolves true status body ->
     json_parse body = Some aiData ->
     gateway_content aiData = Ret (JStr content) ->
     (forall m, brace_match content = Some m -> json_parse m = None) ->
     exists r,
       url_analyze parse_url json_parse url env = Ret (ROk r) /\
       r_method r = "hybrid-ai" /\ r_aiScore r = Some (Num.of_Z 25)) /\
  (forall features env status body,
     str_truthy (env_api_key env) = true ->
     env_fetch env = FetchResolves false status body ->
     exists r,
       email_analyze json_parse features env = Ret (ROk r) /\
       r_method r = "hybrid-email-ai" /\ r_aiScore r = Some (Num.of_Z 25)).
Proof.
  split; [|split].
  - intros url env status body Hk Hf. unfold url_analyze.
    destruct (calculateRiskScore (extractUrlFeatures parse_url url)) as [s t].
    unfold require_api_key. rewrite Hk. cbn [bind]. rewrite Hf. cbn [negb].
    eexists; split; [reflexivity | split; reflexivity].
  - intros url env status body aiData content Hk Hf Hb Hc Hp.
    unfold url_analyze.
    destruct (calculateRiskScore (extractUrlFeatures parse_url url)) as [s t].
    unfold require_api_key. rewrite Hk. cbn [bind]. rewrite Hf. cbn [negb].
    rewrite Hb, Hc. cbn [bind].
    destruct (url_ai_analysis_unparsable json_parse content Hp) as [-> | ->];
      eexists; (split; [reflexivity | split; reflexivity]).
  - intros features env status body Hk Hf. unfold email_analyze.
    destruct (calculateEmailRiskScore features) as [s t].
    unfold require_api_key. rewrite Hk. cbn [bind]. rewrite Hf.
    eexists; split; [reflexivity | split; reflexivity].
Qed.

Lemma C3_oracle_failure_fallbacks_witness :
  exists r,
    url_analyze Parsers.whatwg_lite Parsers.json_lite "https://example.com" oracle_down = Ret (ROk r) /\
    r_method r = "rule-based".
Proof.
  destruct (C3_oracle_failure_fallbacks Parsers.whatwg_lite Parsers.json_lite) as [H _].
  destruct (H "https://example.com" oracle_down 503%Z "Service Unavailable" eq_refl eq_refl)
    as [r [E [_ M]]].
  exists r; split; [exact E | exact M].
Defined.

(* ------------------------------------------------------------------------- *)
(** ** URL feature extraction *)

(** C9 (amended): extraction returns a record for every string.  When the
    string (with [https://] prepended unless it starts with [http]) does not
    parse, the structural fields are the empty sentinels and the lexical
    fields are computed over the raw string; the digit ratio is the double
    nearest to the digit count over the length for every non-empty string; the handler rejects the
    empty string with status 400 before extraction. *)
Theorem C9_url_extraction_total (parse_url : string -> option UrlParts)
    (json_parse : string -> option json) (url : string) :
  (parse_url (if Str.starts_with url "http" then url else "https://" ++ url) = None ->
   let f := extractUrlFeatures parse_url url in
   domainLength f = 0%nat /\ pathLength f = 0%nat /\ queryLength f = 0%nat /\
   numSubdomains f = 0%nat /\ hasPortNumber f = false /\ hasHttps f = false /\
   length f = String.length url /\ numDigits f = Str.count Str.is_digit url /\
   suspiciousKeywords f = filter (Str.includes (Str.to_lower url)) suspiciousKeywordList) /\
  (url <> EmptyString ->
   digitRatio (extractUrlFeatures parse_url url)
   = Double.of_Q (nat_Q (Str.count Str.is_digit url) / nat_Q (String.length url))) /\
  (forall env, url_serve parse_url json_parse (Some (JObj [("url", JStr EmptyString)])) env
               = RError 400 "URL is required").
Proof.
  split; [|split].
  - intros H f. unfold f, extractUrlFeatures. rewrite H. repeat split.
  - intros Hne.
    assert (Hd : digitRatio (extractUrlFeatures parse_url url) = digit_ratio url)
      by (unfold extractUrlFeatures; destruct (parse_url _); reflexivity).
    rewrite Hd. unfold digit_ratio, Num.div, Num.of_nat, Num.of_Z, nat_Q.
    destruct url as [|c u]; [contradiction|].
    replace (Qeq_bool (inject_Z (Z.of_nat (String.length (String c u)))) 0) with false.
    + reflexivity.
    + symmetry. apply not_true_iff_false. rewrite Qeq_bool_iff.
      unfold Qeq; simpl. lia.
  - intros env. reflexivity.
Qed.

Lemma C9_url_extraction_total_witness :
  digitRatio (extractUrlFeatures Parsers.whatwg_lite "a1b2") = Double.of_Q (nat_Q 2 / nat_Q 4).
Proof.
  destruct (C9_url_extraction_total Parsers.whatwg_lite Parsers.json_lite "a1b2") as [_ [H _]].
  apply H. discriminate.
Defined.

(* ------------------------------------------------------------------------- *)
(** ** Threat indicator lists *)

Lemma same_value_str (s : string) (y : json) :
  same_value (JStr s) y = true -> y = JStr s.
Proof.
  destruct y; simpl; try discriminate.
  intros H. apply String.eqb_eq in H. subst. reflexivity.
Qed.

Lemma set_spread_acc_at_most_once (s : string) (l acc : list json) :
  (List.length (filter (same_value (JStr s)) acc) <= 1)%nat ->
  (List.length (filter (same_value (JStr s)) (set_spread_acc acc l)) <= 1)%nat.
Proof.
  revert acc. induction l as [|x l IH]; intros acc Hacc; simpl.
  - rewrite filter_rev, length_rev. exact Hacc.
  - destruct (existsb (same_value x) acc) eqn:Ex; [apply IH; exact Hacc|].
    apply IH. cbn [filter].
    destruct (same_value (JStr s) x) eqn:Sx; [|exact Hacc].
    apply same_value_str in Sx. subst x.
    assert (Hnil : filter (same_value (JStr s)) acc = []).
    { destruct (filter (same_value (JStr s)) acc) as [|y ys] eqn:F; [reflexivity|].
      exfalso.
      assert (Hy : In y (filter (same_value (JStr s)) acc)) by (rewrite F; left; reflexivity).
      apply filter_In in Hy as [Hin Hs].
      assert (existsb (same_value (JStr s)) acc = true)
        by (apply existsb_exists; exists y; split; assumption).
      congruence. }
    rewrite Hnil. simpl. lia.
Qed.

(** X1: [[...new Set(l)]], as the URL and logo responses build their threat
    indicators, holds each string at most once. *)
Lemma set_spread_string_at_most_once (s : string) (l : list json) :
  (List.length (filter (same_value (JStr s)) (set_spread l)) <= 1)%nat.
Proof. apply set_spread_acc_at_most_once. simpl. lia. Qed.

Lemma string_length_append (a b : string) :
  String.length (a ++ b) = (String.length a + String.length b)%nat.
Proof. induction a as [|c a IH]; simpl; [reflexivity | rewrite IH; reflexivity]. Qed.

Lemma concat_byte_hex_length (bs : list Z) :
  String.length (String.concat EmptyString (map byte_hex bs)) = (2 * List.length bs)%nat.
Proof.
  induction bs as [|b bs IH]; [reflexivity|].
  assert (Hb : String.length (byte_hex b) = 2%nat)
    by (unfold byte_hex; destruct (b <? 16)%Z; reflexivity).
  destruct bs as [|b' bs'].
  - cbn [map String.concat]. rewrite Hb. reflexivity.
  - cbn [map String.concat] in *.
    rewrite string_length_append, string_length_append, IH, Hb. simpl. lia.
Qed.

Lemma blockchainHash_length (env : Env) :
  String.length (blockchainHash env) = (2 + 2 * List.length (env_random env))%nat.
Proof.
  unfold blockchainHash. rewrite string_length_append, concat_byte_hex_length. reflexivity.
Qed.

Lemma chars_append (a b : string) : Str.chars (a ++ b) = (Str.chars a ++ Str.chars b)%list.
Proof. induction a as [|c a IH]; [reflexivity|]. cbn. unfold Str.chars in IH. rewrite IH. reflexivity. Qed.

Definition byte_hex_roundtrip (b : Z) : bool :=
  match Str.chars (byte_hex b) with
  | [hi; lo] => match decode_hex [hi; lo] with Some [c] => Z.eqb c b | _ => false end
  | _ => false
  end.

Lemma byte_hex_roundtrip_all :
  forallb byte_hex_roundtrip (map Z.of_nat (seq 0 256)) = true.
Proof. vm_compute. reflexivity. Qed.

Lemma byte_hex_decode (b : Z) :
  (0 <= b <= 255)%Z ->
  exists hi lo, Str.chars (byte_hex b) = [hi; lo] /\ decode_hex [hi; lo] = Some [b].
Proof.
  intros Hb.
  assert (Hr : byte_hex_roundtrip b = true).
  { pose proof byte_hex_roundtrip_all as H. rewrite forallb_forall in H.
    apply H. apply in_map_iff. exists (Z.to_nat b). split; [lia|]. apply in_seq. lia. }
  unfold byte_hex_roundtrip in Hr.
  destruct (Str.chars (byte_hex b)) as [|hi [|lo [|x l]]]; try discriminate.
  exists hi, lo. split; [reflexivity|].
  destruct (decode_hex [hi; lo]) as [[|c [|d l]]|]; try discriminate.
  apply Z.eqb_eq in Hr. subst c. reflexivity.
Qed.

Lemma decode_hex_cons (hi lo : ascii) (b : Z) (rest : list ascii) (r : list Z) :
  decode_hex [hi; lo] = Some [b] -> decode_hex rest = Some r ->
  decode_hex (hi :: lo :: rest) = Some (b :: r).
Proof.
  cbn [decode_hex]. intros H1 H2. rewrite H2.
  destruct (hex_value hi), (hex_value lo); congruence.
Qed.

Lemma concat_byte_hex_decode (bs : list Z) :
  Forall (fun b => (0 <= b <= 255)%Z) bs ->
  decode_hex (Str.chars (String.concat EmptyString (map byte_hex bs))) = Some bs.
Proof.
  induction bs as [|b bs IH]; intros Hall; [reflexivity|].
  inversion Hall as [|x l Hb Hrest]; subst.
  destruct (byte_hex_decode b Hb) as [hi [lo [Hc Hd]]].
  destruct bs as [|b' bs'].
  - cbn [map String.concat]. rewrite Hc. exact Hd.
  - cbn [map String.concat] in *. rewrite chars_append, Hc.
    apply decode_hex_cons; [exact Hd | apply IH, Hrest].
Qed.

(** X2: the integrity tag is [0x] followed by two lower-case hex digits per
    random byte, which spell the bytes in order; for the 32 bytes the handlers
    draw it has 66 characters. *)
Theorem blockchainHash_format (env : Env) :
  Forall (fun b => (0 <= b <= 255)%Z) (env_random env) ->
  List.length (env_random env) = 32%nat ->
  String.length (blockchainHash env) = 66%nat /\
  exists hex, blockchainHash env = "0x" ++ hex /\ decode_hex (Str.chars hex) = Some (env_random env).
Proof.
  intros Hall Hl. split.
  - rewrite blockchainHash_length, Hl. reflexivity.
  - exists (String.concat EmptyString (map byte_hex (env_random env))).
    split; [reflexivity | apply concat_byte_hex_decode, Hall].
Qed.

Lemma blockchainHash_format_witness :
  String.length (blockchainHash oracle_down) = 66%nat /\
  exists hex, blockchainHash oracle_down = "0x" ++ hex /\
              decode_hex (Str.chars hex) = Some (env_random oracle_down).
Proof.
  apply blockchainHash_format; [vm_compute; repeat constructor; discriminate | reflexivity].
Defined.

Lemma calculateRiskScore_steps (features : UrlFeatures) :
  calculateRiskScore features =
  let '(score, threats) := run_risk (risk_steps features) in (qmin 100 score, threats).
Proof. reflexivity. Qed.

Lemma calculateEmailRiskScore_steps (features : EmailFeatures) :
  calculateEmailRiskScore features =
  let '(score, threats) := run_email (email_steps features) in (Z.min 100 score, threats)%Z.
Proof. reflexivity. Qed.

Lemma set_spread_acc_keeps (s : string) (l acc : list json) :
  In (JStr s) l \/ In (JStr s) acc -> In (JStr s) (set_spread_acc acc l).
Proof.
  revert acc. induction l as [|x l IH]; intros acc H; simpl.
  - rewrite <- in_rev. destruct H as [[]|H]. exact H.
  - destruct (existsb (same_value x) acc) eqn:Ex; apply IH.
    + destruct H as [[Hx|H]|H]; [subst x; right|left|right]; try assumption.
      apply existsb_exists in Ex as [y [Hy Hs]].
      apply same_value_str in Hs. subst y. exact Hy.
    + destruct H as [[Hx|H]|H]; [subst x; right; left; reflexivity | left; exact H | right; right; exact H].
Qed.

(** X3: the hybrid URL response lists every rule-based threat among its
    threat indicators: removing duplicates drops no indicator. *)
Lemma url_hybrid_keeps_rule_threats (url : string) (ruleBasedScore : Q) (threats : list string)
    (aiAnalysis : json) (env : Env) (r : Result) :
  url_hybrid_result url ruleBasedScore threats aiAnalysis env = Ret (ROk r) ->
  forall t, In t threats -> In (JStr t) (r_threatIndicators r).
Proof.
  intros H t Ht. unfold url_hybrid_result in H.
  destruct (spread_if_truthy (Js.field aiAnalysis "additionalThreats")) as [extra|e]; cbn [bind] in H;
    [|discriminate].
  injection H as <-. cbn [r_threatIndicators].
  apply set_spread_acc_keeps. left. apply in_or_app. left. apply in_map. exact Ht.
Qed.

Lemma url_hybrid_keeps_rule_threats_witness :
  match url_hybrid_result "https://example.com" 10 ["Insecure HTTP connection"]
          (JObj [("isPhishing", JBool true);
                 ("additionalThreats", JArr [JStr "Insecure HTTP connection"])])
          (env_with FetchRejects) with
  | Ret (ROk r) => In (JStr "Insecure HTTP connection") (r_threatIndicators r)
  | _ => False
  end.
Proof.
  destruct (url_hybrid_result "https://example.com" 10 ["Insecure HTTP connection"]
          (JObj [("isPhishing", JBool true);
                 ("additionalThreats", JArr [JStr "Insecure HTTP connection"])])
          (env_with FetchRejects)) as [[r|]|] eqn:E; try (vm_compute in E; discriminate).
  apply (url_hybrid_keeps_rule_threats _ _ _ _ _ r E). left. reflexivity.
Defined.

Lemma qmin_nonneg (a b : Q) : 0 <= a -> 0 <= b -> 0 <= qmin a b.
Proof. intros Ha Hb. unfold qmin. destruct (Qle_bool a b); assumption. Qed.

Lemma qmin_le_l (a b : Q) : qmin a b <= a.
Proof.
  unfold qmin. destruct (Qle_bool a b) eqn:E; [apply Qle_refl|].
  apply Qlt_le_weak, Qnot_le_lt. intros H. apply Qle_bool_iff in H. congruence.
Qed.

Lemma nat_Q_nonneg (n : nat) : 0 <= nat_Q n.
Proof. unfold nat_Q. change 0 with (inject_Z 0). rewrite <- Zle_Qle. lia. Qed.

Lemma nat_Q_ge (k n : nat) : (k <= n)%nat -> nat_Q k <= nat_Q n.
Proof. intros H. unfold nat_Q. rewrite <- Zle_Qle. lia. Qed.

Lemma run_risk_inv (steps : list (bool * Q * string)) (st : Q * list string) :
  0 <= fst st ->
  Forall (fun x : bool * Q * string => let '(c, p, _) := x in c = true -> 0 <= p) steps ->
  0 <= fst (fold_left (fun st '(c, p, t) => risk_add c p t st) steps st) /\
  (List.length (snd (fold_left (fun st '(c, p, t) => risk_add c p t st) steps st))
     <= List.length (snd st) + List.length steps)%nat.
Proof.
  revert st. induction steps as [|[[c p] t] steps IH]; intros [s ts] Hs Hall; simpl.
  - split; [exact Hs | lia].
  - inversion Hall as [|x l Hx Hrest]; subst.
    destruct c; simpl.
    + destruct (IH (s + p, (ts ++ [t])%list)) as [H1 H2]; simpl; try assumption.
      * apply (Qplus_le_compat 0 s 0 p) in Hs; [exact Hs | apply Hx; reflexivity].
      * split; [exact H1|]. cbn [snd] in H2. rewrite length_app in H2. simpl in H2. lia.
    + destruct (IH (s, ts)) as [H1 H2]; simpl; try assumption. cbn [snd] in H2. split; [exact H1 | lia].
Qed.

Lemma risk_steps_nonneg (features : UrlFeatures) :
  Forall (fun x : bool * Q * string => let '(c, p, _) := x in c = true -> 0 <= p) (risk_steps features).
Proof.
  unfold risk_steps.
  repeat constructor; intros Hc; try (unfold Qle; simpl; lia).
  - apply qmin_nonneg; [unfold Qle; simpl; lia|].
    apply Qmult_le_0_compat; [apply nat_Q_nonneg | unfold Qle; simpl; lia].
  - apply qmin_nonneg; [unfold Qle; simpl; lia|].
    apply Nat.ltb_lt in Hc. pose proof (nat_Q_ge 101 _ Hc) as Hq.
    change (nat_Q 101) with (101 # 1) in Hq.
    unfold Qdiv. change (Qinv 20) with (1 # 20). lra.
  - apply qmin_nonneg; [unfold Qle; simpl; lia|].
    apply Nat.ltb_lt in Hc. pose proof (nat_Q_ge 4 _ Hc) as Hq.
    change (nat_Q 4) with (4 # 1) in Hq. lra.
  - apply qmin_nonneg; [unfold Qle; simpl; lia|].
    apply Nat.ltb_lt in Hc. pose proof (nat_Q_ge 4 _ Hc) as Hq.
    change (nat_Q 4) with (4 # 1) in Hq. lra.
Qed.

(** X4: the rule-based URL score lies between 0 and 100, and at most twelve
    threats are reported, one per rule. *)
Lemma calculateRiskScore_bounds (features : UrlFeatures) :
  0 <= fst (calculateRiskScore features) <= 100 /\
  (List.length (snd (calculateRiskScore features)) <= 12)%nat.
Proof.
  rewrite calculateRiskScore_steps.
  destruct (run_risk_inv (risk_steps features) (0, []) (Qle_refl 0) (risk_steps_nonneg features))
    as [H1 H2].
  unfold run_risk. destruct (fold_left _ (risk_steps features) (0, [])) as [s ts].
  simpl in *. split; [split|].
  - apply qmin_nonneg; [unfold Qle; simpl; lia | exact H1].
  - apply qmin_le_l.
  - exact H2.
Qed.

Lemma run_risk_grow (steps : list (bool * Q * string)) (st : Q * list string) :
  exists extra,
    snd (fold_left (fun st '(c, p, t) => risk_add c p t st) steps st) = (snd st ++ extra)%list /\
    (extra = [] -> fst (fold_left (fun st '(c, p, t) => risk_add c p t st) steps st) = fst st).
Proof.
  revert st. induction steps as [|[[c p] t] steps IH]; intros [s ts]; simpl.
  - exists []. split; [rewrite app_nil_r; reflexivity | reflexivity].
  - destruct c; simpl.
    + destruct (IH (s + p, (ts ++ [t])%list)) as [e [H1 H2]]. cbn [snd fst] in *.
      exists (t :: e). split; [rewrite H1, <- app_assoc; reflexivity | discriminate].
    + exact (IH (s, ts)).
Qed.

(** No rule fired, no point: the URL score without threats is 0. *)
Lemma calculateRiskScore_silent (features : UrlFeatures) :
  snd (calculateRiskScore features) = [] -> fst (calculateRiskScore features) = 0.
Proof.
  rewrite calculateRiskScore_steps. unfold run_risk.
  destruct (run_risk_grow (risk_steps features) (0, [])) as [e [H1 H2]].
  destruct (fold_left _ (risk_steps features) (0, [])) as [s ts]. cbn [fst snd] in *.
  intros ->. destruct e; [|discriminate]. rewrite (H2 eq_refl). reflexivity.
Qed.



(** C7 (amended): [unknown] is a verdict of the logo heuristic only.  A logo
    on which no heuristic rule fires and that is not an image URL on a
    known-safe domain is [unknown]; an upload with a base64 image and no image
    URL is [unknown] with probability 30.  The URL and email analyzers never
    report [unknown]; when the gateway answers with a non-2xx status, a URL on
    which no rule fires is reported [safe]. *)
Theorem C7_unknown_verdicts (parse_url : string -> option UrlParts) (json_parse : string -> option json)
    (to_js_string : json -> string) :
  (forall input,
     fst (calcLogoScore parse_url input) = 0%Z ->
     (str_truthy (imageUrl input) && hasSafeDomain parse_url (str_or_empty (imageUrl input)))%bool = false ->
     verdict (calcLogoHeuristic parse_url input) = "unknown") /\
  (forall b : json,
     Js.truthy b = true ->
     verdict (calcLogoHeuristic parse_url {| imageUrl := None; base64Image := Some b |}) = "unknown" /\
     probability (calcLogoHeuristic parse_url {| imageUrl := None; base64Image := Some b |}) = 30%Z) /\
  (forall body env r, url_serve parse_url json_parse body env = ROk r -> r_result r <> "unknown") /\
  (forall req env r, email_serve json_parse to_js_string req env = ROk r -> r_result r <> "unknown") /\
  (forall url env status body r,
     snd (calculateRiskScore (extractUrlFeatures parse_url url)) = [] ->
     env_fetch env = FetchResolves false status body ->
     url_analyze parse_url json_parse url env = Ret (ROk r) ->
     r_result r = "safe").
Proof.
  split; [|split; [|split; [|split]]].
  - intros input H0 Hs. unfold calcLogoHeuristic. cbv zeta.
    destruct (calcLogoScore parse_url input) as [score iss]. simpl in H0; subst score.
    rewrite Hs. reflexivity.
  - intros b Hb. unfold calcLogoHeuristic, calcLogoScore. cbv zeta. cbn [imageUrl base64Image].
    cbn [Js.truthy_opt]. rewrite Hb. vm_compute. split; reflexivity.
  - intros body env r H. destruct (url_serve_threshold parse_url json_parse body env r H) as [x ->].
    apply threshold_result_not_unknown.
  - intros req env r H. destruct (email_serve_threshold json_parse to_js_string req env r H) as [x ->].
    apply threshold_result_not_unknown.
  - intros url env status body r Ht Hf.
    pose proof (calculateRiskScore_silent (extractUrlFeatures parse_url url) Ht) as H0.
    unfold url_analyze.
    destruct (require_api_key env) as [[]|e]; cbn [bind]; [|discriminate].
    destruct (calculateRiskScore (extractUrlFeatures parse_url url)) as [s t].
    cbn [fst] in H0; subst s.
    rewrite Hf. cbn [negb]. unfold url_rule_based_result. intros H; injection H as <-. reflexivity.
Qed.

Lemma C7_unknown_verdicts_witness :
  verdict (calcLogoHeuristic Parsers.whatwg_lite
             {| imageUrl := None; base64Image := Some (JStr "iVBORw0KGgo=") |}) = "unknown" /\
  match url_analyze Parsers.whatwg_lite Parsers.json_lite "https://example.com" oracle_down with
  | Ret (ROk r) => r_result r = "safe"
  | _ => False
  end.
Proof.
  destruct (C7_unknown_verdicts Parsers.whatwg_lite Parsers.json_lite (fun _ => EmptyString))
    as [_ [Hb [_ [_ Hu]]]].
  split.
  - apply (Hb (JStr "iVBORw0KGgo=")). reflexivity.
  - destruct (url_analyze Parsers.whatwg_lite Parsers.json_lite "https://example.com" oracle_down)
      as [[r|]|] eqn:E; try (vm_compute in E; discriminate).
    apply (Hu "https://example.com" oracle_down 503%Z "Service Unavailable" r);
      [vm_compute; reflexivity | reflexivity | exact E].
Defined.

(** X5: when the AI gateway answers with a non-2xx status, the URL handler's
    rule-based fallback reports a confidence between 50 and 100 and at most
    twelve threat indicators. *)
Theorem url_fallback_confidence_bounds (parse_url : string -> option UrlParts)
    (json_parse : string -> option json) (url : string) (env : Env) (status : Z) (body : string) :
  str_truthy (env_api_key env) = true ->
  env_fetch env = FetchResolves false status body ->
  exists r q,
    url_analyze parse_url json_parse url env = Ret (ROk r) /\
    r_confidence r = JFin q /\ 50 <= q <= 100 /\
    (List.length (r_threatIndicators r) <= 12)%nat.
Proof.
  intros Hk Hf. unfold url_analyze.
  pose proof (calculateRiskScore_bounds (extractUrlFeatures parse_url url)) as Hb.
  destruct (calculateRiskScore (extractUrlFeatures parse_url url)) as [s t].
  cbn [fst snd] in Hb. destruct Hb as [[H0 H100] Hl].
  unfold require_api_key. rewrite Hk. cbn [bind]. rewrite Hf. cbn [negb].
  unfold url_rule_based_result.
  destruct DoubleFacts.of_Q_int_fixed as [Hm50 [_ [_ [H50 [_ [_ H100']]]]]].
  destruct (DoubleFacts.of_Q_between (-50) 50 (50 + - s) Hm50 H50) as [d [Ed Hd]]; [lra|].
  assert (Ha : exists a, Num.abs (Num.sub (JFin 50) (JFin s)) = JFin a /\ 0 <= a <= 50).
  { unfold Num.sub, Num.neg, Num.add. rewrite Ed. cbn [Num.abs].
    destruct (Qle_bool 0 d) eqn:E.
    - apply Qle_bool_iff in E. exists d. split; [reflexivity | lra].
    - assert (~ 0 <= d) by (intros Hc; apply Qle_bool_iff in Hc; congruence).
      exists (- d). split; [reflexivity | lra]. }
  destruct Ha as [a [Ea Ha]].
  destruct (DoubleFacts.of_Q_between 50 100 (100 + - a) H50 H100') as [c [Ec Hc]]; [lra|].
  eexists; exists c; split; [reflexivity|]. split.
  - cbn [r_confidence]. unfold Num.sub at 1. rewrite Ea. exact Ec.
  - split; [exact Hc|].
    cbn [r_threatIndicators]. rewrite length_map. exact Hl.
Qed.

Lemma url_fallback_confidence_bounds_witness :
  str_truthy (env_api_key oracle_down) = true /\
  env_fetch oracle_down = FetchResolves false 503 "Service Unavailable" /\
  exists r q,
    url_analyze Parsers.whatwg_lite Parsers.json_lite "http://10.0.0.1/login" oracle_down = Ret (ROk r) /\
    r_confidence r = JFin q /\ 50 <= q <= 100 /\
    (List.length (r_threatIndicators r) <= 12)%nat.
Proof.
  split; [reflexivity | split; [reflexivity|]].
  apply (url_fallback_confidence_bounds Parsers.whatwg_lite Parsers.json_lite
           "http://10.0.0.1/login" oracle_down 503 "Service Unavailable"); reflexivity.
Defined.

(** A NaN AI score makes the combined score NaN. *)
Lemma combined_score_nan (ruleBasedScore : Q) : combined_score ruleBasedScore JNaN = JNaN.
Proof.
  unfold combined_score.
  generalize (Num.mul (JFin ruleBasedScore) (Double.of_Q (2 # 5))) as a.
  generalize (Double.of_Q (3 # 5)) as b.
  intros b a. destruct a as [|[]|], b as [|[]|]; reflexivity.
Qed.

(** X6: an AI answer whose confidence is not a number (a string such as
    "high") makes the AI and combined scores NaN; the hybrid URL verdict is
    then [safe] whatever the rule-based score and the [isPhishing] flag, with
    a NaN confidence. *)
Theorem url_nan_confidence_is_safe (url : string) (ruleBasedScore : Q) (threats : list string)
    (aiAnalysis : json) (env : Env) (r : Result) :
  Js.to_number (Js.or_else (Js.field aiAnalysis "confidence") (JNum 50)) = JNaN ->
  url_hybrid_result url ruleBasedScore threats aiAnalysis env = Ret (ROk r) ->
  r_result r = "safe" /\ r_confidence r = JNaN /\ r_combinedScore r = Some JNaN.
Proof.
  intros Hc H. unfold url_hybrid_result in H.
  assert (Ha : ai_score aiAnalysis = JNaN)
    by (unfold ai_score; rewrite Hc; destruct (Js.truthy_opt _); reflexivity).
  rewrite Ha in H.
  destruct (spread_if_truthy (Js.field aiAnalysis "additionalThreats")) as [extra|e]; cbn [bind] in H;
    [|discriminate].
  injection H as <-. rewrite combined_score_nan. cbn.
  destruct (negb (Qle_bool ruleBasedScore 20) || Js.truthy_opt (Js.field aiAnalysis "isPhishing"));
    repeat split.
Qed.

Lemma url_nan_confidence_is_safe_witness :
  Js.to_number (Js.or_else (Js.field (JObj [("isPhishing", JBool true); ("confidence", JStr "high")])
                                     "confidence") (JNum 50)) = JNaN /\
  match url_hybrid_result "http://10.0.0.1/verify-account" 65 ["IP address used instead of domain name"]
          (JObj [("isPhishing", JBool true); ("confidence", JStr "high")]) oracle_down with
  | Ret (ROk r) => r_result r = "safe" /\ r_confidence r = JNaN /\ r_combinedScore r = Some JNaN
  | _ => False
  end.
Proof.
  split; [reflexivity|].
  destruct (url_hybrid_result "http://10.0.0.1/verify-account" 65 ["IP address used instead of domain name"]
          (JObj [("isPhishing", JBool true); ("confidence", JStr "high")]) oracle_down)
    as [[r|]|] eqn:E; try (vm_compute in E; discriminate).
  apply (url_nan_confidence_is_safe "http://10.0.0.1/verify-account" 65
           ["IP address used instead of domain name"]
           (JObj [("isPhishing", JBool true); ("confidence", JStr "high")]) oracle_down r);
    [reflexivity | exact E].
Defined.

(* ------------------------------------------------------------------------- *)
(** ** Substrings *)

Lemma prefixb_spec (p s : list ascii) : Str.prefixb p s = true <-> exists c, s = (p ++ c)%list.
Proof.
  revert s. induction p as [|a p IH]; intros s; simpl.
  - split; [intros _; exists s; reflexivity | reflexivity].
  - destruct s as [|b s].
    + split; [discriminate | intros [c Hc]; discriminate].
    + rewrite andb_true_iff, IH. split.
      * intros [Hab [c Hc]]. apply Ascii.eqb_eq in Hab. subst. exists c. reflexivity.
      * intros [c Hc]. injection Hc as -> ->. split; [apply Ascii.eqb_refl | exists c; reflexivity].
Qed.

Lemma infixb_spec (p s : list ascii) :
  Str.infixb p s = true <-> exists a c, s = (a ++ p ++ c)%list.
Proof.
  induction s as [|x s IH]; simpl.
  - rewrite prefixb_spec. split.
    + intros [c Hc]. exists [], c. exact Hc.
    + intros [a [c Hc]]. destruct a; [exists c; exact Hc | discriminate].
  - rewrite orb_true_iff, prefixb_spec, IH. split.
    + intros [[c Hc] | [a [c Hc]]].
      * exists [], c. exact Hc.
      * exists (x :: a), c. rewrite Hc. reflexivity.
    + intros [a [c Hc]]. destruct a as [|y a].
      * left. exists c. exact Hc.
      * right. injection Hc as -> ->. exists a, c. reflexivity.
Qed.

Lemma infixb_trans (a b c : list ascii) :
  Str.infixb a b = true -> Str.infixb b c = true -> Str.infixb a c = true.
Proof.
  rewrite !infixb_spec. intros [x [y ->]] [u [v ->]].
  exists (u ++ x)%list, (y ++ v)%list. rewrite <- !app_assoc. reflexivity.
Qed.

Lemma chars_string_of_list (l : list ascii) : Str.chars (string_of_list_ascii l) = l.
Proof. apply list_ascii_of_string_of_list_ascii. Qed.

Lemma chars_length (s : string) : List.length (Str.chars s) = String.length s.
Proof. induction s as [|c s IH]; simpl; [reflexivity | unfold Str.chars in *; simpl; rewrite IH; reflexivity]. Qed.

(* ------------------------------------------------------------------------- *)
(** ** The brand loop and the email features *)

Lemma brand_step_spec (fullText senderLower senderDomain : string) (st : bool * list string)
    (b : string) :
  brand_step fullText senderLower senderDomain st b =
  (fst st || brand_flagged fullText senderLower senderDomain b,
   if brand_flagged fullText senderLower senderDomain b then (snd st ++ [b])%list else snd st).
Proof.
  destruct st as [sp acc]. unfold brand_step, brand_flagged.
  destruct (Str.includes fullText b || Str.includes senderLower b); cbn [andb fst snd];
    [|rewrite orb_false_r; reflexivity].
  destruct (lookup_domains b legitimateDomains) as [legit|]; cbn [andb];
    [|rewrite orb_false_r; reflexivity].
  destruct (existsb (fun d => Str.ends_with senderDomain d) legit); cbn [negb andb];
    [rewrite orb_false_r; reflexivity|].
  destruct (Str.includes senderDomain b); cbn [fst snd];
    [rewrite orb_true_r; reflexivity | rewrite orb_false_r; reflexivity].
Qed.

Lemma brand_fold (fullText senderLower senderDomain : string) (brands : list string)
    (st : bool * list string) :
  fold_left (brand_step fullText senderLower senderDomain) brands st =
  (fst st || existsb (brand_flagged fullText senderLower senderDomain) brands,
   (snd st ++ filter (brand_flagged fullText senderLower senderDomain) brands)%list).
Proof.
  revert st. induction brands as [|b brands IH]; intros [sp acc];
    cbn [fold_left existsb filter fst snd].
  - rewrite orb_false_r, app_nil_r. reflexivity.
  - rewrite IH, brand_step_spec. cbn [fst snd].
    destruct (brand_flagged fullText senderLower senderDomain b).
    + destruct sp; cbn [orb]; rewrite <- app_assoc; reflexivity.
    + rewrite orb_false_r. reflexivity.
Qed.

Lemma extractEmailFeatures_brand_fields (sender subject body : string) :
  let f := extractEmailFeatures sender subject body in
  let flagged := brand_flagged (Str.to_lower (subject ++ " " ++ body)) (Str.to_lower sender)
                               (senderDomain f) in
  impersonatedBrands f = filter flagged knownBrands /\
  hasBrandImpersonation f = (0 <? List.length (filter flagged knownBrands))%nat /\
  isSpoofedDomain f =
    existsb flagged knownBrands
    || (Str.includes (senderDomain f) "-" && (2 <? Str.split_length "-" (senderDomain f))%nat)
    || MailRegex.three_digits_test (senderDomain f).
Proof.
  unfold extractEmailFeatures. cbv zeta. rewrite brand_fold. cbn [fst snd app orb].
  split; [reflexivity | split; [reflexivity|]].
  cbn [isSpoofedDomain senderDomain].
  destruct (MailRegex.three_digits_test _); destruct (_ && _); destruct (existsb _ _); reflexivity.
Qed.

(* ------------------------------------------------------------------------- *)
(** ** The email score *)

Lemma run_email_sum (steps : list (bool * Z * string)) (st : Z * list string) :
  fst (fold_left (fun st '(c, p, t) => email_add c p t st) steps st) =
  (fst st + fold_right (fun (x : bool * Z * string) acc => let '(c, p, _) := x in (if c then p else 0) + acc)%Z 0%Z steps)%Z /\
  (List.length (snd (fold_left (fun st '(c, p, t) => email_add c p t st) steps st))
     <= List.length (snd st) + List.length steps)%nat.
Proof.
  revert st. induction steps as [|[[c p] t] steps IH]; intros [s ts]; cbn [fold_left fold_right fst snd].
  - split; [lia | cbn [List.length]; lia].
  - destruct (IH (email_add c p t (s, ts))) as [H1 H2]. split.
    + rewrite H1. destruct c; cbn [email_add fst]; lia.
    + destruct c; cbn [email_add snd] in H2 |- *;
        [rewrite length_app in H2; cbn [List.length] in *; lia | cbn [List.length]; lia].
Qed.

Lemma fired_nonneg (steps : list (bool * Z * string)) :
  Forall (fun x : bool * Z * string => let '(c, p, _) := x in c = true -> (0 <= p)%Z) steps ->
  (0 <= fold_right (fun (x : bool * Z * string) acc => let '(c, p, _) := x in (if c then p else 0) + acc)%Z 0%Z steps)%Z.
Proof.
  induction steps as [|[[c p] t] steps IH]; intros Hall; cbn [fold_right]; [lia|].
  inversion Hall as [|x l Hx Hrest]; subst.
  specialize (IH Hrest). destruct c; [specialize (Hx eq_refl)|]; lia.
Qed.

Lemma email_steps_nonneg (features : EmailFeatures) :
  Forall (fun x : bool * Z * string => let '(c, p, _) := x in c = true -> (0 <= p)%Z)
         (email_steps features).
Proof. unfold email_steps. repeat constructor; intros _; lia. Qed.

Lemma email_score_sum (features : EmailFeatures) :
  fst (calculateEmailRiskScore features) =
  Z.min 100 (fold_right (fun (x : bool * Z * string) acc => let '(c, p, _) := x in (if c then p else 0) + acc)%Z 0%Z (email_steps features)).
Proof.
  rewrite calculateEmailRiskScore_steps. unfold run_email.
  destruct (run_email_sum (email_steps features) (0%Z, [])) as [H _].
  destruct (fold_left _ (email_steps features) (0%Z, [])) as [s ts]. cbn [fst] in *. lia.
Qed.

(** X8: the rule-based email score lies between 0 and 100, and at most eight
    threats are reported, one per rule. *)
Lemma calculateEmailRiskScore_bounds (features : EmailFeatures) :
  (0 <= fst (calculateEmailRiskScore features) <= 100)%Z /\
  (List.length (snd (calculateEmailRiskScore features)) <= 8)%nat.
Proof.
  pose proof (fired_nonneg _ (email_steps_nonneg features)) as Hn.
  split; [rewrite email_score_sum; lia|].
  rewrite calculateEmailRiskScore_steps. unfold run_email.
  destruct (run_email_sum (email_steps features) (0%Z, [])) as [_ H].
  destruct (fold_left _ (email_steps features) (0%Z, [])) as [s ts]. cbn [fst snd] in *. exact H.
Qed.

Lemma existsb_filter_length {A} (f : A -> bool) (l : list A) :
  existsb f l = (0 <? List.length (filter f l))%nat.
Proof. induction l as [|x l IH]; cbn; [reflexivity|]. destruct (f x); cbn; [reflexivity | exact IH]. Qed.

(** X9: an email flagged for brand impersonation is always flagged for a
    spoofed sender domain too, so its rule-based score is at least 55. *)
Theorem brand_impersonation_score (sender subject body : string) :
  hasBrandImpersonation (extractEmailFeatures sender subject body) = true ->
  isSpoofedDomain (extractEmailFeatures sender subject body) = true /\
  (55 <= fst (calculateEmailRiskScore (extractEmailFeatures sender subject body)))%Z.
Proof.
  intros Hb.
  destruct (extractEmailFeatures_brand_fields sender subject body) as [_ [H2 H3]].
  cbv zeta in H2, H3.
  generalize dependent (extractEmailFeatures sender subject body). intros f Hb H2 H3.
  assert (Hs : isSpoofedDomain f = true).
  { rewrite H3. rewrite H2 in Hb. rewrite existsb_filter_length, Hb. reflexivity. }
  split; [exact Hs|].
  clear H2 H3.
  rewrite email_score_sum. unfold email_steps. cbn [fold_right]. rewrite Hs, Hb.
  pose proof (fired_nonneg (skipn 2 (email_steps f)) ltac:(
    unfold email_steps; cbn [skipn]; repeat constructor; intros _; lia)) as Hn.
  unfold email_steps in Hn. cbn [skipn fold_right] in Hn.
  generalize dependent (fold_right
       (fun (x : bool * Z * string) (acc : Z) => let '(c, p, _) := x in ((if c then p else 0) + acc)%Z)
       0%Z
       (skipn 2 (email_steps f))).
  intros; lia.
Qed.

Lemma brand_impersonation_score_witness :
  hasBrandImpersonation
    (extractEmailFeatures "PayPal <alerts@paypal-support.com>" "Your account" "Please review it.") = true /\
  isSpoofedDomain
    (extractEmailFeatures "PayPal <alerts@paypal-support.com>" "Your account" "Please review it.") = true /\
  (55 <= fst (calculateEmailRiskScore
    (extractEmailFeatures "PayPal <alerts@paypal-support.com>" "Your account" "Please review it.")))%Z.
Proof.
  split; [vm_compute; reflexivity|].
  apply brand_impersonation_score. vm_compute. reflexivity.
Defined.

Lemma prefixb_infixb (p l : list ascii) : Str.prefixb p l = true -> Str.infixb p l = true.
Proof.
  rewrite prefixb_spec, infixb_spec. intros [c ->]. exists [], c. reflexivity.
Qed.

Lemma infixb_cons (p l : list ascii) (c : ascii) :
  Str.infixb p l = true -> Str.infixb p (c :: l) = true.
Proof. intros H. cbn. rewrite H. apply orb_true_r. Qed.

Lemma take_while_prefix (p : ascii -> bool) (l : list ascii) :
  Str.prefixb (MailRegex.take_while p l) l = true.
Proof.
  induction l as [|c l IH]; cbn; [reflexivity|].
  destruct (p c); cbn; [rewrite Ascii.eqb_refl; exact IH | reflexivity].
Qed.

Lemma domain_match_infix (l d : list ascii) :
  MailRegex.domain_match l = Some d -> Str.infixb d l = true.
Proof.
  induction l as [|c l IH]; cbn; [discriminate|].
  destruct (Ascii.eqb c "@").
  - destruct (MailRegex.take_while MailRegex.is_domain_char l) as [|x r] eqn:E.
    + intros H. apply infixb_cons, IH, H.
    + intros H. injection H as <-. apply infixb_cons, prefixb_infixb.
      rewrite <- E. apply take_while_prefix.
  - intros H. apply infixb_cons, IH, H.
Qed.

Lemma extractEmailFeatures_senderDomain (sender subject body : string) :
  senderDomain (extractEmailFeatures sender subject body) =
  match MailRegex.domain_match (Str.chars (Str.to_lower sender)) with
  | Some d => string_of_list_ascii d
  | None => EmptyString
  end.
Proof. unfold extractEmailFeatures. cbv zeta. destruct (fold_left _ _ _). reflexivity. Qed.

Lemma senderDomain_in_sender (sender subject body b : string) :
  Str.includes (senderDomain (extractEmailFeatures sender subject body)) b = true ->
  Str.includes (Str.to_lower sender) b = true.
Proof.
  rewrite extractEmailFeatures_senderDomain. unfold Str.includes.
  destruct (MailRegex.domain_match (Str.chars (Str.to_lower sender))) as [d|] eqn:E.
  - rewrite chars_string_of_list. intros H. apply (infixb_trans _ d); [exact H|].
    apply domain_match_infix, E.
  - intros H. cbn in H. apply infixb_spec. apply prefixb_spec in H as [c Hc].
    destruct (Str.chars b); [|discriminate].
    exists [], (Str.chars (Str.to_lower sender)). reflexivity.
Qed.

(** X10: a brand is reported as impersonated exactly when it is one of the
    known brands that has a list of official domains, the sender domain
    contains its name, and the sender domain ends with none of its official
    domains. *)
Theorem impersonated_brands_spec (sender subject body b : string) :
  In b (impersonatedBrands (extractEmailFeatures sender subject body)) <->
  In b knownBrands /\
  exists legit, lookup_domains b legitimateDomains = Some legit /\
    Str.includes (senderDomain (extractEmailFeatures sender subject body)) b = true /\
    existsb (fun d => Str.ends_with (senderDomain (extractEmailFeatures sender subject body)) d) legit
      = false.
Proof.
  destruct (extractEmailFeatures_brand_fields sender subject body) as [H1 _].
  cbv zeta in H1. rewrite H1, filter_In. unfold brand_flagged.
  split.
  - intros [Hin Hf]. split; [exact Hin|].
    apply andb_true_iff in Hf as [_ Hf].
    destruct (lookup_domains b legitimateDomains) as [legit|]; [|discriminate].
    apply andb_true_iff in Hf as [He Hc]. apply negb_true_iff in He.
    exists legit. repeat split; assumption.
  - intros [Hin [legit [Hl [Hc He]]]]. split; [exact Hin|].
    rewrite Hl, He, Hc. cbn [negb andb].
    rewrite (senderDomain_in_sender _ _ _ _ Hc). rewrite orb_true_r. reflexivity.
Qed.

Lemma extractEmailFeatures_grammarScore (sender subject body : string) :
  grammarScore (extractEmailFeatures sender subject body) =
  Z.max 0
    ((if existsb (Str.includes (Str.to_lower body)) ["dear customer"; "dear user"; "dear valued"]
      then fun g => g - 20 else fun g => g)
     ((if Str.includes body "!!!" then fun g => g - 10 else fun g => g)
      ((if MailRegex.five_upper_test body then fun g => g - 15 else fun g => g)
       ((if MailRegex.two_spaces_test body then fun g => g - 10 else fun g => g) 100))))%Z.
Proof.
  unfold extractEmailFeatures. cbv zeta. destruct (fold_left _ _ _). cbn [grammarScore].
  destruct (MailRegex.two_spaces_test body), (MailRegex.five_upper_test body),
    (Str.includes body "!!!"), (existsb _ _); reflexivity.
Qed.

(** X11: the grammar score lies between 45 and 100, and it falls below the
    threshold 60 of the poor-grammar rule exactly when the body has a generic
    greeting ("dear customer", "dear user" or "dear valued", in any case), a run
    of five capital letters, and two consecutive white-space characters or
    "!!!". *)
Theorem grammar_score_spec (sender subject body : string) :
  (45 <= grammarScore (extractEmailFeatures sender subject body) <= 100)%Z /\
  ((grammarScore (extractEmailFeatures sender subject body) <? 60)%Z =
   existsb (Str.includes (Str.to_lower body)) ["dear customer"; "dear user"; "dear valued"]
   && MailRegex.five_upper_test body
   && (MailRegex.two_spaces_test body || Str.includes body "!!!")).
Proof.
  rewrite extractEmailFeatures_grammarScore.
  destruct (MailRegex.two_spaces_test body), (MailRegex.five_upper_test body),
    (Str.includes body "!!!"), (existsb _ _); cbn; split; (lia || reflexivity).
Qed.

Lemma lower_char_at (c : ascii) : Ascii.eqb (Str.lower_char c) "@" = Ascii.eqb c "@".
Proof. destruct c as [[] [] [] [] [] [] [] []]; reflexivity. Qed.

Lemma domain_match_no_at (l : list ascii) :
  (forall c, In c l -> c <> "@"%char) -> MailRegex.domain_match (map Str.lower_char l) = None.
Proof.
  induction l as [|c l IH]; intros H; cbn; [reflexivity|].
  rewrite lower_char_at.
  destruct (Ascii.eqb c "@") eqn:E.
  - apply Ascii.eqb_eq in E. exfalso. apply (H c); [left; reflexivity | exact E].
  - apply IH. intros d Hd. apply H. right. exact Hd.
Qed.

(** X12: a sender without an ['@'] gets an empty sender domain, so it is never
    flagged for a spoofed domain or for brand impersonation. *)
Theorem sender_without_at (sender subject body : string) :
  (forall c, In c (Str.chars sender) -> c <> "@"%char) ->
  senderDomain (extractEmailFeatures sender subject body) = EmptyString /\
  isSpoofedDomain (extractEmailFeatures sender subject body) = false /\
  impersonatedBrands (extractEmailFeatures sender subject body) = [].
Proof.
  intros H.
  assert (Hd : senderDomain (extractEmailFeatures sender subject body) = EmptyString).
  { rewrite extractEmailFeatures_senderDomain. unfold Str.to_lower.
    rewrite chars_string_of_list, domain_match_no_at by exact H. reflexivity. }
  destruct (extractEmailFeatures_brand_fields sender subject body) as [H1 [_ H3]].
  cbv zeta in H1, H3. rewrite Hd in H1, H3.
  assert (Hf : forall b, In b knownBrands ->
            brand_flagged (Str.to_lower (subject ++ " " ++ body)) (Str.to_lower sender) EmptyString b
            = false).
  { intros b Hb. unfold knownBrands in Hb.
    repeat (destruct Hb as [<-|Hb]; [unfold brand_flagged; apply andb_false_iff; right; reflexivity|]).
    destruct Hb. }
  split; [exact Hd | split].
  - rewrite H3. cbn [orb andb].
    destruct (existsb _ knownBrands) eqn:E; [|reflexivity].
    apply existsb_exists in E as [b [Hb Hb']]. rewrite Hf in Hb' by exact Hb. discriminate.
  - rewrite H1. destruct (filter _ knownBrands) as [|b l] eqn:E; [reflexivity|].
    assert (Hb : In b (filter (brand_flagged (Str.to_lower (subject ++ " " ++ body))
                                  (Str.to_lower sender) EmptyString) knownBrands))
      by (rewrite E; left; reflexivity).
    apply filter_In in Hb as [Hb Hb']. rewrite Hf in Hb' by exact Hb. discriminate.
Qed.

Lemma sender_without_at_witness :
  (forall c, In c (Str.chars "paypal-security") -> c <> "@"%char) /\
  senderDomain (extractEmailFeatures "paypal-security" "Verify now" "Dear customer, verify.") = EmptyString /\
  isSpoofedDomain (extractEmailFeatures "paypal-security" "Verify now" "Dear customer, verify.") = false /\
  impersonatedBrands (extractEmailFeatures "paypal-security" "Verify now" "Dear customer, verify.") = [].
Proof.
  assert (H : forall c, In c (Str.chars "paypal-security") -> c <> "@"%char).
  { intros c Hc. cbn in Hc. repeat (destruct Hc as [<-|Hc]; [discriminate|]). destruct Hc. }
  split; [exact H | apply sender_without_at; exact H].
Defined.

Lemma fired_ge (steps : list (bool * Z * string)) (p : Z) (t : string) :
  Forall (fun x : bool * Z * string => let '(c, p, _) := x in c = true -> (0 <= p)%Z) steps ->
  In (true, p, t) steps ->
  (p <= fold_right (fun (x : bool * Z * string) acc => let '(c, p, _) := x in (if c then p else 0) + acc)%Z 0%Z steps)%Z.
Proof.
  induction steps as [|[[c q] u] steps IH]; intros Hall Hin; [destruct Hin|].
  inversion Hall as [|x l Hx Hrest]; subst. cbn [fold_right].
  pose proof (fired_nonneg _ Hrest) as Hn.
  destruct Hin as [Heq|Hin].
  - injection Heq as -> -> ->. specialize (Hx eq_refl). cbn in Hx |- *. lia.
  - specialize (IH Hrest Hin). destruct c; [specialize (Hx eq_refl)|]; lia.
Qed.


Lemma extractEmailFeatures_urgency (sender subject body : string) :
  urgencyCount (extractEmailFeatures sender subject body) =
    List.length (filter (Str.includes (Str.to_lower (subject ++ " " ++ body))) urgencyKeywords) /\
  hasUrgencyKeywords (extractEmailFeatures sender subject body) =
    (0 <? List.length (filter (Str.includes (Str.to_lower (subject ++ " " ++ body))) urgencyKeywords))%nat.
Proof. unfold extractEmailFeatures. cbv zeta. destruct (fold_left _ _ _). split; reflexivity. Qed.

(** X13: the urgency keyword "now" is matched as a substring, so any email
    whose subject or body contains "now" (as in "know", "known" or "snow")
    counts as urgency manipulation and scores at least 5. *)
Theorem urgency_now_substring (sender subject body : string) :
  Str.includes (Str.to_lower (subject ++ " " ++ body)) "now" = true ->
  hasUrgencyKeywords (extractEmailFeatures sender subject body) = true /\
  (5 <= fst (calculateEmailRiskScore (extractEmailFeatures sender subject body)))%Z.
Proof.
  intros H.
  destruct (extractEmailFeatures_urgency sender subject body) as [Hc Hu].
  pose proof (existsb_filter_length (Str.includes (Str.to_lower (subject ++ " " ++ body)))
                                      urgencyKeywords) as E.
  assert (Hx : existsb (Str.includes (Str.to_lower (subject ++ " " ++ body))) urgencyKeywords = true)
      by (apply existsb_exists; exists "now"; split; [cbn; tauto | exact H]).
  rewrite Hx in E. rewrite <- E in Hu. rewrite <- Hc in E. symmetry in E. apply Nat.ltb_lt in E.
  split; [exact Hu|].
  rewrite email_score_sum.
  generalize (fired_ge (email_steps (extractEmailFeatures sender subject body))
                (Z.min 20 (Z.of_nat (urgencyCount (extractEmailFeatures sender subject body)) * 5))
                ("Urgency manipulation detected ("
                   ++ nat_to_string (urgencyCount (extractEmailFeatures sender subject body))
                   ++ " keywords)")
                (email_steps_nonneg _)).
  intros Hg.
  assert (Hin : In (hasUrgencyKeywords (extractEmailFeatures sender subject body),
                    Z.min 20 (Z.of_nat (urgencyCount (extractEmailFeatures sender subject body)) * 5),
                    "Urgency manipulation detected ("
                      ++ nat_to_string (urgencyCount (extractEmailFeatures sender subject body))
                      ++ " keywords)")
                   (email_steps (extractEmailFeatures sender subject body)))
    by (unfold email_steps; cbn [In]; tauto).
  rewrite Hu in Hin. specialize (Hg Hin). 
  generalize dependent (fold_right (fun (x : bool * Z * string) acc => let '(c, p, _) := x in (if c then p else 0) + acc)%Z 0%Z (email_steps (extractEmailFeatures sender subject body))).
  generalize dependent (urgencyCount (extractEmailFeatures sender subject body)).
  intros. clear - E Hg. lia.
Qed.

Lemma urgency_now_substring_witness :
  Str.includes (Str.to_lower ("Meeting notes" ++ " " ++ "Let me know what you think.")) "now" = true /\
  hasUrgencyKeywords (extractEmailFeatures "ann@example.org" "Meeting notes" "Let me know what you think.")
    = true /\
  (5 <= fst (calculateEmailRiskScore
    (extractEmailFeatures "ann@example.org" "Meeting notes" "Let me know what you think.")))%Z.
Proof.
  split; [vm_compute; reflexivity|].
  apply urgency_now_substring. vm_compute. reflexivity.
Defined.

Lemma lower_char_space (c : ascii) : MailRegex.is_space (Str.lower_char c) = MailRegex.is_space c.
Proof. destruct c as [[] [] [] [] [] [] [] []]; reflexivity. Qed.

Lemma prefixb_map_firstn (f : ascii -> ascii) (p l : list ascii) :
  Str.prefixb p (map f l) = true -> map f (firstn (List.length p) l) = p.
Proof.
  revert l. induction p as [|a p IH]; intros l H; [reflexivity|].
  destruct l as [|x l]; [discriminate|].
  cbn in H |- *. apply andb_true_iff in H as [Ha H].
  apply Ascii.eqb_eq in Ha. rewrite Ha, (IH l H). reflexivity.
Qed.

Lemma take_while_firstn (p : ascii -> bool) (l : list ascii) :
  firstn (List.length (MailRegex.take_while p l)) l = MailRegex.take_while p l.
Proof.
  induction l as [|c l IH]; [reflexivity|]. cbn. destruct (p c); [cbn; rewrite IH|]; reflexivity.
Qed.

Lemma take_while_all (p : ascii -> bool) (l : list ascii) :
  forallb p (MailRegex.take_while p l) = true.
Proof.
  induction l as [|c l IH]; [reflexivity|]. cbn. destruct (p c) eqn:E; cbn; [rewrite E, IH|]; reflexivity.
Qed.

Lemma forallb_no_space_lower (l : list ascii) :
  forallb (fun c => negb (MailRegex.is_space c)) (map Str.lower_char l) =
  forallb (fun c => negb (MailRegex.is_space c)) l.
Proof. induction l as [|c l IH]; [reflexivity|]. cbn. rewrite lower_char_space, IH. reflexivity. Qed.

Lemma link_char_no_space (l : list ascii) :
  forallb MailRegex.is_link_char l = true -> forallb (fun c => negb (MailRegex.is_space c)) l = true.
Proof.
  induction l as [|c l IH]; [reflexivity|]. cbn. intros H. apply andb_true_iff in H as [Hc H].
  rewrite (IH H), andb_true_r. unfold MailRegex.is_link_char in Hc.
  destruct (MailRegex.is_space c); [discriminate | reflexivity].
Qed.

Lemma link_scheme_split (scheme l : list ascii) (n : nat) :
  Str.prefixb scheme (map Str.lower_char l) = true ->
  MailRegex.take_while MailRegex.is_link_char (skipn (List.length scheme) l) <> [] ->
  n = (List.length scheme + List.length (MailRegex.take_while MailRegex.is_link_char (skipn (List.length scheme) l)))%nat ->
  map Str.lower_char (firstn n l) =
    (scheme ++ map Str.lower_char (MailRegex.take_while MailRegex.is_link_char (skipn (List.length scheme) l)))%list /\
  forallb (fun c => negb (MailRegex.is_space c)) (firstn n l) =
    forallb (fun c => negb (MailRegex.is_space c)) scheme.
Proof.
  intros Hp _ ->.
  pose proof (prefixb_map_firstn _ _ _ Hp) as Hm.
  assert (Hk : List.length (firstn (List.length scheme) l) = List.length scheme)
    by (rewrite <- Hm at 2; rewrite length_map; reflexivity).
  assert (Hs : firstn (List.length scheme + List.length (MailRegex.take_while MailRegex.is_link_char (skipn (List.length scheme) l))) l =
               (firstn (List.length scheme) l ++ MailRegex.take_while MailRegex.is_link_char (skipn (List.length scheme) l))%list).
  { transitivity (firstn (List.length scheme + List.length (MailRegex.take_while MailRegex.is_link_char (skipn (List.length scheme) l)))
                    (firstn (List.length scheme) l ++ skipn (List.length scheme) l)%list);
      [rewrite firstn_skipn; reflexivity|].
    rewrite firstn_app, Hk, firstn_all2 by lia.
    f_equal. rewrite Nat.add_comm, Nat.add_sub. apply take_while_firstn. }
  rewrite Hs. split.
  - rewrite map_app, Hm. reflexivity.
  - rewrite forallb_app, <- forallb_no_space_lower, Hm.
    rewrite (link_char_no_space _ (take_while_all _ _)), andb_true_r. reflexivity.
Qed.

Lemma link_at_shape (l : list ascii) (n : nat) :
  MailRegex.link_at l = Some n ->
  (Str.prefixb (Str.chars "https://") (map Str.lower_char (firstn n l))
   || Str.prefixb (Str.chars "http://") (map Str.lower_char (firstn n l))) = true /\
  forallb (fun c => negb (MailRegex.is_space c)) (firstn n l) = true.
Proof.
  unfold MailRegex.link_at. cbv zeta.
  assert (Happ : forall p c, Str.prefixb p (p ++ c) = true)
    by (intros p c; apply prefixb_spec; exists c; reflexivity).
  destruct (Str.prefixb (Str.chars "https://") (map Str.lower_char l)) eqn:E1;
  [|destruct (Str.prefixb (Str.chars "http://") (map Str.lower_char l)) eqn:E2; [|discriminate]].
  - destruct (MailRegex.take_while MailRegex.is_link_char (skipn 8 l)) as [|x r] eqn:T; [discriminate|].
    intros H. injection H as <-.
    change 8%nat with (List.length (Str.chars "https://")) in T.
    destruct (link_scheme_split (Str.chars "https://") l (8 + List.length (x :: r)) E1)
      as [H1 H2]; [rewrite T; discriminate | rewrite T; reflexivity |].
    cbn [Nat.add Datatypes.length] in H1, H2. rewrite H1, H2, Happ. split; reflexivity.
  - destruct (MailRegex.take_while MailRegex.is_link_char (skipn 7 l)) as [|x r] eqn:T; [discriminate|].
    intros H. injection H as <-.
    change 7%nat with (List.length (Str.chars "http://")) in T.
    destruct (link_scheme_split (Str.chars "http://") l (7 + List.length (x :: r)) E2)
      as [H1 H2]; [rewrite T; discriminate | rewrite T; reflexivity |].
    cbn [Nat.add Datatypes.length] in H1, H2. rewrite H1, H2, Happ, orb_true_r. split; reflexivity.
Qed.

Lemma infixb_app_r (p a b : list ascii) : Str.infixb p b = true -> Str.infixb p (a ++ b) = true.
Proof.
  rewrite !infixb_spec. intros [x [y ->]]. exists (a ++ x)%list, y. rewrite <- !app_assoc. reflexivity.
Qed.

Lemma links_fuel_shape (fuel : nat) (l : list ascii) (link : string) :
  In link (MailRegex.links_fuel fuel l) ->
  Str.infixb (Str.chars link) l = true /\
  (Str.prefixb (Str.chars "https://") (map Str.lower_char (Str.chars link))
   || Str.prefixb (Str.chars "http://") (map Str.lower_char (Str.chars link))) = true /\
  forallb (fun c => negb (MailRegex.is_space c)) (Str.chars link) = true.
Proof.
  revert l. induction fuel as [|f IH]; intros l H; [destruct H|].
  destruct l as [|c l']; [destruct H|].
  cbn [MailRegex.links_fuel] in H.
  destruct (MailRegex.link_at (c :: l')) as [n|] eqn:E.
  - destruct H as [<-|H].
    + rewrite chars_string_of_list. split; [|apply link_at_shape, E].
      apply prefixb_infixb. apply prefixb_spec. exists (skipn n (c :: l')).
      symmetry. apply firstn_skipn.
    + destruct (IH _ H) as [H1 H2]. split; [|exact H2].
      rewrite <- (firstn_skipn n (c :: l')). apply infixb_app_r, H1.
  - destruct (IH _ H) as [H1 H2]. split; [|exact H2]. apply infixb_cons, H1.
Qed.

(** X14: every link the email extraction reports occurs in the body, starts
    with [https://] or [http://] in any letter case, and contains no white
    space. *)
Theorem links_shape (body link : string) :
  In link (MailRegex.links body) ->
  Str.includes body link = true /\
  (Str.starts_with (Str.to_lower link) "https://" || Str.starts_with (Str.to_lower link) "http://") = true /\
  forallb (fun c => negb (MailRegex.is_space c)) (Str.chars link) = true.
Proof.
  intros H. unfold Str.includes, Str.starts_with, Str.to_lower. rewrite chars_string_of_list.
  apply (links_fuel_shape _ _ _ H).
Qed.

Lemma links_shape_witness :
  In "HTTPS://evil.example/x" (MailRegex.links "Click HTTPS://evil.example/x now") /\
  Str.includes "Click HTTPS://evil.example/x now" "HTTPS://evil.example/x" = true /\
  (Str.starts_with (Str.to_lower "HTTPS://evil.example/x") "https://"
   || Str.starts_with (Str.to_lower "HTTPS://evil.example/x") "http://") = true /\
  forallb (fun c => negb (MailRegex.is_space c)) (Str.chars "HTTPS://evil.example/x") = true.
Proof.
  assert (H : In "HTTPS://evil.example/x" (MailRegex.links "Click HTTPS://evil.example/x now"))
    by (vm_compute; left; reflexivity).
  split; [exact H | apply links_shape; exact H].
Defined.

Lemma round_le_hi (hi : Z) (x : Q) :
  x <= inject_Z hi -> inject_Z (Qfloor (x + (1 # 2))) <= inject_Z hi.
Proof.
  intros H. pose proof (Qfloor_le (x + (1 # 2))) as Hf.
  destruct (Z_le_gt_dec (Qfloor (x + (1 # 2))) hi) as [Hz|Hz].
  - rewrite <- Zle_Qle. exact Hz.
  - assert (Hz' : (hi + 1 <= Qfloor (x + (1 # 2)))%Z) by lia.
    rewrite Zle_Qle in Hz'. rewrite inject_Z_plus in Hz'. exfalso.
    change (inject_Z 1) with 1 in Hz'. lra.
Qed.

Lemma round_ge_lo (lo : Z) (x : Q) :
  inject_Z lo - (1 # 2) <= x -> inject_Z lo <= inject_Z (Qfloor (x + (1 # 2))).
Proof.
  intros H. pose proof (Qlt_floor (x + (1 # 2))) as Hf. rewrite inject_Z_plus in Hf.
  change (inject_Z 1) with 1 in Hf.
  destruct (Z_le_gt_dec lo (Qfloor (x + (1 # 2)))) as [Hz|Hz].
  - rewrite <- Zle_Qle. exact Hz.
  - assert (Hz' : (Qfloor (x + (1 # 2)) + 1 <= lo)%Z) by lia.
    rewrite Zle_Qle in Hz'. rewrite inject_Z_plus in Hz'. exfalso.
    change (inject_Z 1) with 1 in Hz'. lra.
Qed.

Lemma email_analyze_shape (json_parse : string -> option json) (features : EmailFeatures)
    (env : Env) (r : Result) :
  email_analyze json_parse features env = Ret (ROk r) ->
  exists ok st body ai,
    env_fetch env = FetchResolves ok st body /\
    email_ai_analysis json_parse ok body = Ret ai /\
    r_result r =
      threshold_result (combined_score (inject_Z (fst (calculateEmailRiskScore features))) (ai_score ai)) /\
    r_confidence r =
      Num.round
        (if String.eqb (threshold_result (combined_score (inject_Z (fst (calculateEmailRiskScore features))) (ai_score ai))) "safe"
         then Num.sub (JFin 100) (combined_score (inject_Z (fst (calculateEmailRiskScore features))) (ai_score ai))
         else Num.min (JFin 98) (Num.add (combined_score (inject_Z (fst (calculateEmailRiskScore features))) (ai_score ai)) (JFin 20))) /\
    r_combinedScore r =
      Some (Num.round (combined_score (inject_Z (fst (calculateEmailRiskScore features))) (ai_score ai))).
Proof.
  intros H. unfold email_analyze in H.
  destruct (require_api_key env) as [[]|e]; cbn [bind] in H; [|discriminate].
  destruct (calculateEmailRiskScore features) as [s t]. cbn [fst].
  destruct (env_fetch env) as [|ok st body]; [discriminate|].
  destruct (email_ai_analysis json_parse ok body) as [ai|e] eqn:Ea; cbn [bind] in H; [|discriminate].
  destruct (spread_if_truthy (Js.field ai "tactics")); cbn [bind] in H; [|discriminate].
  destruct (spread_if_truthy (Js.field ai "redFlags")); cbn [bind] in H; [|discriminate].
  injection H as <-. exists ok, st, body, ai. repeat split; assumption.
Qed.

(** X7: in the email analyzer, an AI answer whose confidence is not a number
    (a string such as "high") makes the combined score NaN; the verdict is then
    [safe] whatever the rule-based score, with a NaN confidence. *)
Theorem email_nan_confidence_is_safe (json_parse : string -> option json) (features : EmailFeatures)
    (env : Env) (ok : bool) (status : Z) (body : string) (ai : json) (r : Result) :
  env_fetch env = FetchResolves ok status body ->
  email_ai_analysis json_parse ok body = Ret ai ->
  Js.to_number (Js.or_else (Js.field ai "confidence") (JNum 50)) = JNaN ->
  email_analyze json_parse features env = Ret (ROk r) ->
  r_result r = "safe" /\ r_confidence r = JNaN /\ r_combinedScore r = Some JNaN.
Proof.
  intros Hf Hai Hc H.
  destruct (email_analyze_shape _ _ _ _ H) as [ok' [st' [body' [ai' [Hf' [Hai' [H1 [H2 H3]]]]]]]].
  rewrite Hf in Hf'. injection Hf' as <- <- <-. rewrite Hai in Hai'. injection Hai' as <-.
  assert (Ha : ai_score ai = JNaN)
    by (unfold ai_score; rewrite Hc; destruct (Js.truthy_opt _); reflexivity).
  assert (Hn : combined_score (inject_Z (fst (calculateEmailRiskScore features))) (ai_score ai) = JNaN)
    by (rewrite Ha; apply combined_score_nan).
  rewrite Hn in H1, H2, H3. split; [exact H1 | split; [exact H2 | exact H3]].
Qed.

Lemma ge_50_25 (c : jsnum) : Num.ge c (JFin 50) = true -> Num.ge c (JFin 25) = true.
Proof.
  destruct c as [x|[]|]; cbn [Num.ge Num.leb]; try discriminate; trivial.
  intros H. apply Qle_bool_iff in H. apply Qle_bool_iff. lra.
Qed.

(** The email confidence [Math.round(Math.min(98, combinedScore + 20))] of a
    verdict other than [safe]. *)
Lemma email_confidence_not_safe (c : jsnum) :
  Num.ge c (JFin 25) = true ->
  exists q, Num.round (Num.min (JFin 98) (Num.add c (JFin 20))) = JFin q /\ 45 <= q <= 98.
Proof.
  destruct DoubleFacts.of_Q_int_fixed as [_ [_ [H45 _]]].
  assert (Hr : forall q, 45 <= q <= 98 ->
            exists q', Num.round (Num.min (JFin 98) (JFin q)) = JFin q' /\ 45 <= q' <= 98).
  { intros q Hq. unfold Num.min. cbn [Num.is_nan orb Num.leb].
    destruct (Qle_bool 98 q); cbn [Num.round];
      (eexists; split; [reflexivity|]; split; [apply (round_ge_lo 45) | apply (round_le_hi 98)];
       change (inject_Z 45) with 45; change (inject_Z 98) with 98; lra). }
  intros H. destruct c as [x|[]|]; cbn [Num.ge Num.leb] in H; try discriminate.
  - apply Qle_bool_iff in H. unfold Num.add.
    destruct (DoubleFacts.of_Q_ge 45 (x + 20) H45) as [E|[q [E Hq]]]; [lra| |]; rewrite E.
    + apply (Hr 98). lra.
    + unfold Num.min. cbn [Num.is_nan orb Num.leb].
      destruct (Qle_bool 98 q) eqn:E3.
      * apply (Hr 98). lra.
      * assert (~ 98 <= q) by (intros Hc; apply Qle_bool_iff in Hc; congruence).
        cbn [Num.round]. eexists; split; [reflexivity|].
        split; [apply (round_ge_lo 45) | apply (round_le_hi 98)];
          change (inject_Z 45) with 45; change (inject_Z 98) with 98; lra.
  - apply (Hr 98). lra.
Qed.

(** The email confidence [Math.round(100 - combinedScore)] of a [safe]
    verdict. *)
Lemma email_confidence_safe (c : jsnum) :
  Num.ge c (JFin 25) = false ->
  Num.round (Num.sub (JFin 100) c) = JNaN \/ Num.round (Num.sub (JFin 100) c) = JInf false \/
  exists q, Num.round (Num.sub (JFin 100) c) = JFin q /\ 75 <= q.
Proof.
  destruct DoubleFacts.of_Q_int_fixed as [_ [_ [_ [_ [H75 _]]]]].
  intros H. destruct c as [x|[]|]; cbn [Num.ge Num.leb] in H; try discriminate.
  - assert (~ 25 <= x) by (intros Hc; apply Qle_bool_iff in Hc; congruence).
    unfold Num.sub, Num.neg, Num.add.
    destruct (DoubleFacts.of_Q_ge 75 (100 + - x) H75) as [E|[q [E Hq]]]; [lra| |]; rewrite E.
    + right; left; reflexivity.
    + right; right. cbn [Num.round]. eexists; split; [reflexivity|].
      change 75 with (inject_Z 75). apply round_ge_lo. change (inject_Z 75) with 75. lra.
  - right; left; reflexivity.
  - left; reflexivity.
Qed.

(** X15: a successful email analysis with a [suspicious] or [phishing] verdict
    has a confidence between 45 and 98; a [safe] verdict has a NaN confidence,
    an infinite one (an infinite AI confidence) or one of at least 75. *)
Theorem email_confidence_bounds (json_parse : string -> option json) (features : EmailFeatures)
    (env : Env) (r : Result) :
  email_analyze json_parse features env = Ret (ROk r) ->
  (r_result r = "safe" /\
   (r_confidence r = JNaN \/ r_confidence r = JInf false \/
    exists q, r_confidence r = JFin q /\ 75 <= q)) \/
  ((r_result r = "suspicious" \/ r_result r = "phishing") /\
   exists q, r_confidence r = JFin q /\ 45 <= q <= 98).
Proof.
  intros H.
  destruct (email_analyze_shape _ _ _ _ H) as [ok [st [body [ai [_ [_ [H1 [H2 _]]]]]]]].
  revert H1 H2.
  generalize (combined_score (inject_Z (fst (calculateEmailRiskScore features))) (ai_score ai)).
  intros c H1 H2. unfold threshold_result in H1, H2.
  destruct (Num.ge c (JFin 50)) eqn:E1; [|destruct (Num.ge c (JFin 25)) eqn:E2].
  - right. split; [right; exact H1|]. rewrite H2.
    cbn [String.eqb Ascii.eqb Bool.eqb andb]. apply email_confidence_not_safe, ge_50_25, E1.
  - right. split; [left; exact H1|]. rewrite H2.
    cbn [String.eqb Ascii.eqb Bool.eqb andb]. apply email_confidence_not_safe, E2.
  - left. split; [exact H1|]. rewrite H2.
    cbn [String.eqb Ascii.eqb Bool.eqb andb]. apply email_confidence_safe, E2.
Qed.

Lemma email_nan_confidence_is_safe_witness :
  match email_analyze Parsers.json_lite
          (extractEmailFeatures "alerts@paypal-support.com" "URGENT: verify now" "Dear customer, click here.")
          (oracle_says (verdict_json "true" (js "high"))) with
  | Ret (ROk r) => r_result r = "safe" /\ r_confidence r = JNaN /\ r_combinedScore r = Some JNaN
  | _ => False
  end.
Proof.
  destruct (email_analyze Parsers.json_lite
          (extractEmailFeatures "alerts@paypal-support.com" "URGENT: verify now" "Dear customer, click here.")
          (oracle_says (verdict_json "true" (js "high")))) as [[r|]|] eqn:E;
    try (vm_compute in E; discriminate).
  apply (email_nan_confidence_is_safe Parsers.json_lite
           (extractEmailFeatures "alerts@paypal-support.com" "URGENT: verify now" "Dear customer, click here.")
           (oracle_says (verdict_json "true" (js "high"))) true 200
           (gateway_body (verdict_json "true" (js "high")))
           (JObj [("isPhishing", JBool true); ("confidence", JStr "high")]) r);
    [reflexivity | vm_compute; reflexivity | reflexivity | exact E].
Defined.

Lemma email_confidence_bounds_witness :
  match email_analyze Parsers.json_lite
          (extractEmailFeatures "bob@example.com" "Lunch" "See you at noon.") oracle_down with
  | Ret (ROk r) =>
      (r_result r = "safe" /\
       (r_confidence r = JNaN \/ r_confidence r = JInf false \/
        exists q, r_confidence r = JFin q /\ 75 <= q)) \/
      ((r_result r = "suspicious" \/ r_result r = "phishing") /\
       exists q, r_confidence r = JFin q /\ 45 <= q <= 98)
  | _ => False
  end.
Proof.
  destruct (email_analyze Parsers.json_lite
          (extractEmailFeatures "bob@example.com" "Lunch" "See you at noon.") oracle_down)
    as [[r|]|] eqn:E; try (vm_compute in E; discriminate).
  apply (email_confidence_bounds Parsers.json_lite
           (extractEmailFeatures "bob@example.com" "Lunch" "See you at noon.") oracle_down r E).
Defined.

Lemma email_dispatch (json_parse : string -> option json) (to_js_string : json -> string)
    (b : json) (env : Env) :
  b <> JNull ->
  email_serve json_parse to_js_string (Some b) env =
  catch_500
    (if negb (Js.truthy_opt (Js.field b "sender") && Js.truthy_opt (Js.field b "subject")
              && Js.truthy_opt (Js.field b "body"))
     then Ret (RError 400 "Sender, subject, and body are required")
     else
       match Js.field b "sender", Js.field b "body" with
       | Some (JStr s), Some (JStr t) =>
           email_analyze json_parse
             (extractEmailFeatures s (template_string to_js_string (Js.field b "subject")) t) env
       | _, _ => _ <- require_api_key env ;; Throw "TypeError"
       end).
Proof. intros Hb. destruct b; [congruence | reflexivity ..]. Qed.

(** X16: the email handler answers 400 when the sender, subject or body is
    missing or falsy, before it looks at the API key; with the three fields
    present it answers 500 "LOVABLE_API_KEY is not configured" when the key is
    unset or empty, and 500 "TypeError" when the gateway call fails. *)
Theorem email_serve_errors (json_parse : string -> option json) (to_js_string : json -> string)
    (b : json) (env : Env) :
  b <> JNull ->
  (Js.truthy_opt (Js.field b "sender") && Js.truthy_opt (Js.field b "subject")
   && Js.truthy_opt (Js.field b "body") = false ->
   email_serve json_parse to_js_string (Some b) env =
     RError 400 "Sender, subject, and body are required") /\
  (Js.truthy_opt (Js.field b "sender") && Js.truthy_opt (Js.field b "subject")
   && Js.truthy_opt (Js.field b "body") = true ->
   str_truthy (env_api_key env) = false ->
   email_serve json_parse to_js_string (Some b) env =
     RError 500 "LOVABLE_API_KEY is not configured") /\
  (Js.truthy_opt (Js.field b "sender") && Js.truthy_opt (Js.field b "subject")
   && Js.truthy_opt (Js.field b "body") = true ->
   str_truthy (env_api_key env) = true ->
   env_fetch env = FetchRejects ->
   email_serve json_parse to_js_string (Some b) env = RError 500 "TypeError").
Proof.
  intros Hb. rewrite (email_dispatch _ _ _ _ Hb).
  generalize (Js.field b "sender"), (Js.field b "subject"), (Js.field b "body").
  intros so su bo. split; [|split].
  - intros H. rewrite H. reflexivity.
  - intros H Hk. rewrite H. cbn [negb].
    destruct so as [[]|], bo as [[]|];
      unfold require_api_key; try (unfold email_analyze, require_api_key); rewrite Hk; reflexivity.
  - intros H Hk Hf. rewrite H. cbn [negb].
    destruct so as [[]|], bo as [[]|];
      unfold require_api_key; try (unfold email_analyze, require_api_key); rewrite Hk; cbn [bind];
      try reflexivity.
    destruct (calculateEmailRiskScore _). rewrite Hf. reflexivity.
Qed.

Lemma email_serve_errors_witness :
  JObj [("sender", JStr "a@b.com"); ("subject", JStr "Hi"); ("body", JStr "Hello")] <> JNull /\
  email_serve Parsers.json_lite (fun _ => "[object Object]")
    (Some (JObj [("sender", JStr "a@b.com"); ("subject", JStr "Hi"); ("body", JStr "Hello")]))
    (env_with FetchRejects) = RError 500 "TypeError".
Proof.
  assert (Hb : JObj [("sender", JStr "a@b.com"); ("subject", JStr "Hi"); ("body", JStr "Hello")] <> JNull)
    by discriminate.
  split; [exact Hb|].
  destruct (email_serve_errors Parsers.json_lite (fun _ => "[object Object]")
    (JObj [("sender", JStr "a@b.com"); ("subject", JStr "Hi"); ("body", JStr "Hello")])
    (env_with FetchRejects) Hb) as [_ [_ H]].
  apply H; reflexivity.
Defined.

(** X17: the URL handler answers 400 "URL is required" when the [url] field is
    missing, not a string, or empty, whatever the environment; for a non-empty
    string it answers 500 "LOVABLE_API_KEY is not configured" when the key is
    unset or empty. *)
Theorem url_serve_errors (parse_url : string -> option UrlParts) (json_parse : string -> option json)
    (b : json) (env : Env) :
  b <> JNull ->
  (match Js.field b "url" with Some (JStr u) => u = EmptyString | _ => True end ->
   url_serve parse_url json_parse (Some b) env = RError 400 "URL is required") /\
  (forall url, Js.field b "url" = Some (JStr url) -> url <> EmptyString ->
   str_truthy (env_api_key env) = false ->
   url_serve parse_url json_parse (Some b) env = RError 500 "LOVABLE_API_KEY is not configured").
Proof.
  intros Hb.
  assert (Hd : url_serve parse_url json_parse (Some b) env =
               catch_500 (match Js.field b "url" with
                          | Some (JStr url) =>
                              if String.eqb url EmptyString then Ret (RError 400 "URL is required")
                              else url_analyze parse_url json_parse url env
                          | _ => Ret (RError 400 "URL is required")
                          end))
    by (destruct b; [congruence | reflexivity ..]).
  rewrite Hd. split.
  - destruct (Js.field b "url") as [[]|]; try reflexivity. intros ->. reflexivity.
  - intros url Hu Hne Hk. rewrite Hu.
    destruct (String.eqb url EmptyString) eqn:E; [apply String.eqb_eq in E; contradiction|].
    unfold url_analyze, require_api_key. rewrite Hk. reflexivity.
Qed.

Lemma url_serve_errors_witness :
  JObj [("url", JStr "https://example.com")] <> JNull /\
  url_serve Parsers.whatwg_lite Parsers.json_lite (Some (JObj [("url", JStr "https://example.com")]))
    {| env_api_key := Some EmptyString; env_fetch := FetchRejects;
       env_random := random_bytes; env_now := "2026-10-14T09:30:00.000Z" |}
  = RError 500 "LOVABLE_API_KEY is not configured".
Proof.
  assert (Hb : JObj [("url", JStr "https://example.com")] <> JNull) by discriminate.
  split; [exact Hb|].
  destruct (url_serve_errors Parsers.whatwg_lite Parsers.json_lite
     (JObj [("url", JStr "https://example.com")])
     {| env_api_key := Some EmptyString; env_fetch := FetchRejects;
        env_random := random_bytes; env_now := "2026-10-14T09:30:00.000Z" |} Hb) as [_ H].
  apply (H "https://example.com"); [reflexivity | discriminate | reflexivity].
Defined.

Lemma calcLogoScore_shape (parse_url : string -> option UrlParts) (input : LogoInput) :
  (fst (calcLogoScore parse_url input) = 0%Z <-> snd (calcLogoScore parse_url input) = []) /\
  (fst (calcLogoScore parse_url input) = 0 \/ fst (calcLogoScore parse_url input) = 20 \/
   fst (calcLogoScore parse_url input) = 30 \/ 50 <= fst (calcLogoScore parse_url input))%Z.
Proof.
  unfold calcLogoScore. cbv zeta.
  repeat match goal with |- context [if ?b then _ else _] => destruct b end;
    cbn; (split; [split; intros H; (discriminate || lia || reflexivity) | lia]).
Qed.

Lemma calcLogoScore_zero (parse_url : string -> option UrlParts) (input : LogoInput) :
  fst (calcLogoScore parse_url input) = 0%Z ->
  (Js.truthy_opt (base64Image input)
   || (str_truthy (imageUrl input) && negb (Str.starts_with (str_or_empty (imageUrl input)) "http")))
    = false /\
  (str_truthy (imageUrl input)
   && existsb (Str.includes (Str.to_lower (str_or_empty (imageUrl input)))) PHISH_KEYWORDS) = false /\
  (str_truthy (imageUrl input)
   && (Str.includes (Str.to_lower (str_or_empty (imageUrl input))) "blur"
       || (String.length (str_or_empty (imageUrl input)) <? 50)%nat)) = false.
Proof.
  unfold calcLogoScore. cbv zeta.
  repeat match goal with |- context [if ?b then _ else _] => destruct b end;
    cbn; intros H; (lia || (repeat split)).
Qed.

(** X18: the logo heuristic answers [safe] with probability 8, [unknown] with
    probability 45, 20 or 30, or [phishing] with a probability between 50 and
    95; no other verdict or probability occurs. *)
Theorem logo_verdict_cases (parse_url : string -> option UrlParts) (input : LogoInput) :
  (verdict (calcLogoHeuristic parse_url input) = "safe" /\
   probability (calcLogoHeuristic parse_url input) = 8%Z) \/
  (verdict (calcLogoHeuristic parse_url input) = "unknown" /\
   (probability (calcLogoHeuristic parse_url input) = 45 \/
    probability (calcLogoHeuristic parse_url input) = 20 \/
    probability (calcLogoHeuristic parse_url input) = 30)%Z) \/
  (verdict (calcLogoHeuristic parse_url input) = "phishing" /\
   (50 <= probability (calcLogoHeuristic parse_url input) <= 95)%Z).
Proof.
  destruct (calcLogoScore_shape parse_url input) as [_ Hs].
  unfold calcLogoHeuristic. cbv zeta.
  destruct (calcLogoScore parse_url input) as [s iss]. cbn [fst] in Hs.
  destruct (str_truthy (imageUrl input) && hasSafeDomain parse_url (str_or_empty (imageUrl input))
            && (s =? 0)%Z); [left; split; reflexivity|].
  destruct (s =? 0)%Z eqn:E0; [right; left; split; [reflexivity | left; reflexivity]|].
  apply Z.eqb_neq in E0. cbn [verdict probability].
  destruct (30 <? Z.min 95 s)%Z eqn:E.
  - apply Z.ltb_lt in E. right; right. split; [reflexivity | lia].
  - apply Z.ltb_ge in E. right; left. split; [reflexivity | lia].
Qed.

(** X19: an image URL whose lower-cased text contains one of the keywords
    [phish], [fake], [scam] or [suspicious] is always reported [phishing],
    with a probability of at least 50. *)
Theorem logo_keyword_is_phishing (parse_url : string -> option UrlParts) (input : LogoInput) :
  str_truthy (imageUrl input) = true ->
  existsb (Str.includes (Str.to_lower (str_or_empty (imageUrl input)))) PHISH_KEYWORDS = true ->
  verdict (calcLogoHeuristic parse_url input) = "phishing" /\
  (50 <= probability (calcLogoHeuristic parse_url input) <= 95)%Z.
Proof.
  intros Ht Hk.
  assert (Hs : (50 <= fst (calcLogoScore parse_url input))%Z).
  { unfold calcLogoScore. cbv zeta. rewrite Ht, Hk. cbn [andb].
    repeat match goal with |- context [if ?b then _ else _] => destruct b end; cbn; lia. }
  unfold calcLogoHeuristic. cbv zeta.
  destruct (calcLogoScore parse_url input) as [s iss]. cbn [fst] in Hs.
  replace (s =? 0)%Z with false by (symmetry; apply Z.eqb_neq; lia).
  rewrite andb_false_r. cbn [verdict probability].
  replace (30 <? Z.min 95 s)%Z with true by (symmetry; apply Z.ltb_lt; lia).
  split; [reflexivity | lia].
Qed.

Lemma logo_keyword_is_phishing_witness :
  str_truthy (imageUrl {| imageUrl := Some "https://cdn.netflix.com/assets/fake-logo.png"; base64Image := None |})
    = true /\
  existsb (Str.includes (Str.to_lower (str_or_empty
             (imageUrl {| imageUrl := Some "https://cdn.netflix.com/assets/fake-logo.png"; base64Image := None |}))))
    PHISH_KEYWORDS = true /\
  verdict (calcLogoHeuristic Parsers.whatwg_lite
             {| imageUrl := Some "https://cdn.netflix.com/assets/fake-logo.png"; base64Image := None |})
    = "phishing" /\
  (50 <= probability (calcLogoHeuristic Parsers.whatwg_lite
             {| imageUrl := Some "https://cdn.netflix.com/assets/fake-logo.png"; base64Image := None |}) <= 95)%Z.
Proof.
  split; [reflexivity | split; [vm_compute; reflexivity|]].
  apply logo_keyword_is_phishing; [reflexivity | vm_compute; reflexivity].
Defined.

(** X20: a [safe] logo verdict needs an image URL on a known-safe domain that
    starts with [http], is at least 50 characters long and contains neither
    [blur] nor a phishing keyword, with no base64 image; the issue list is then
    empty.  An uploaded base64 image is never [safe]. *)
Theorem logo_safe_requirements (parse_url : string -> option UrlParts) (input : LogoInput) :
  verdict (calcLogoHeuristic parse_url input) = "safe" ->
  Js.truthy_opt (base64Image input) = false /\
  str_truthy (imageUrl input) = true /\
  Str.starts_with (str_or_empty (imageUrl input)) "http" = true /\
  (50 <= String.length (str_or_empty (imageUrl input)))%nat /\
  Str.includes (Str.to_lower (str_or_empty (imageUrl input))) "blur" = false /\
  existsb (Str.includes (Str.to_lower (str_or_empty (imageUrl input)))) PHISH_KEYWORDS = false /\
  hasSafeDomain parse_url (str_or_empty (imageUrl input)) = true /\
  issues (calcLogoHeuristic parse_url input) = [].
Proof.
  destruct (calcLogoScore_shape parse_url input) as [Hi _].
  pose proof (calcLogoScore_zero parse_url input) as Hz.
  unfold calcLogoHeuristic. cbv zeta.
  destruct (calcLogoScore parse_url input) as [s iss]. cbn [fst snd] in Hi, Hz.
  destruct (str_truthy (imageUrl input) && hasSafeDomain parse_url (str_or_empty (imageUrl input))
            && (s =? 0)%Z) eqn:E.
  - intros _. apply andb_true_iff in E as [E E0]. apply andb_true_iff in E as [Ht Hs].
    apply Z.eqb_eq in E0. destruct (Hz E0) as [H1 [H2 H3]].
    rewrite Ht in H1, H2, H3. cbn [andb] in H1, H2, H3.
    apply orb_false_iff in H1 as [H1 H1']. apply negb_false_iff in H1'.
    apply orb_false_iff in H3 as [H3 H3']. apply Nat.ltb_ge in H3'.
    cbn [issues]. apply Hi in E0.
    repeat split; assumption.
  - destruct (s =? 0)%Z; [discriminate|]. cbn [verdict].
    destruct (30 <? Z.min 95 s)%Z; discriminate.
Qed.

Lemma logo_safe_requirements_witness :
  verdict (calcLogoHeuristic Parsers.whatwg_lite
    {| imageUrl := Some "https://cdn.netflix.com/images/brand/logo-large-official-header.png";
       base64Image := None |}) = "safe" /\
  issues (calcLogoHeuristic Parsers.whatwg_lite
    {| imageUrl := Some "https://cdn.netflix.com/images/brand/logo-large-official-header.png";
       base64Image := None |}) = [].
Proof.
  assert (H : verdict (calcLogoHeuristic Parsers.whatwg_lite
    {| imageUrl := Some "https://cdn.netflix.com/images/brand/logo-large-official-header.png";
       base64Image := None |}) = "safe") by (vm_compute; reflexivity).
  split; [exact H|].
  apply (logo_safe_requirements Parsers.whatwg_lite _ H).
Defined.

Lemma count_occ_filter (f : string -> bool) (l : list string) (x : string) :
  count_occ string_dec (filter f l) x = if f x then count_occ string_dec l x else 0%nat.
Proof.
  induction l as [|y l IH]; cbn; [destruct (f x); reflexivity|].
  destruct (f y) eqn:Ey; cbn; destruct (string_dec y x) as [->|Hne]; rewrite IH;
    try rewrite Ey; reflexivity.
Qed.

Lemma count_occ_le_length (l : list string) (x : string) :
  (count_occ string_dec l x <= List.length l)%nat.
Proof. induction l as [|y l IH]; cbn; [lia|]. destruct (string_dec y x); lia. Qed.

Lemma extractUrlFeatures_keywords (parse_url : string -> option UrlParts) (url : string) :
  suspiciousKeywords (extractUrlFeatures parse_url url) =
    filter (Str.includes (Str.to_lower url)) suspiciousKeywordList /\
  (hasSuspiciousKeywords (extractUrlFeatures parse_url url) = true <->
   (0 < List.length (filter (Str.includes (Str.to_lower url)) suspiciousKeywordList))%nat).
Proof.
  unfold extractUrlFeatures. cbv zeta.
  destruct (parse_url _); cbn [suspiciousKeywords hasSuspiciousKeywords]; split; try reflexivity.
  - apply Nat.ltb_lt.
  - rewrite existsb_filter_length. apply Nat.ltb_lt.
Qed.

Lemma run_risk_mono (steps : list (bool * Q * string)) (st : Q * list string) :
  Forall (fun x : bool * Q * string => let '(c, p, _) := x in c = true -> 0 <= p) steps ->
  fst st <= fst (fold_left (fun st '(c, p, t) => risk_add c p t st) steps st).
Proof.
  revert st. induction steps as [|[[c p] t] steps IH]; intros [s ts] Hall; cbn [fold_left].
  - apply Qle_refl.
  - inversion Hall as [|x l Hx Hrest]; subst.
    eapply Qle_trans; [|apply IH, Hrest].
    destruct c; cbn; [specialize (Hx eq_refl); lra | apply Qle_refl].
Qed.

Lemma run_risk_fired (steps : list (bool * Q * string)) (st : Q * list string) (p : Q) (t : string) :
  Forall (fun x : bool * Q * string => let '(c, p, _) := x in c = true -> 0 <= p) steps ->
  In (true, p, t) steps ->
  fst st + p <= fst (fold_left (fun st '(c, p, t) => risk_add c p t st) steps st).
Proof.
  revert st. induction steps as [|[[c q] u] steps IH]; intros [s ts] Hall Hin; [destruct Hin|].
  inversion Hall as [|x l Hx Hrest]; subst. cbn [fold_left].
  destruct Hin as [Heq|Hin].
  - injection Heq as -> -> ->.
    pose proof (run_risk_mono steps (risk_add true p t (s, ts)) Hrest) as Hm. cbn in Hm |- *. lra.
  - pose proof (IH (risk_add c q u (s, ts)) Hrest Hin) as H.
    eapply Qle_trans; [|exact H].
    destruct c; cbn; [specialize (Hx eq_refl); lra | apply Qle_refl].
Qed.

(** X21: the keyword list of the URL analyzer names [verify] twice, so a URL
    containing [verify] (in any case) reports it twice among its suspicious
    keywords, and the keyword rule alone then gives it a score of at least 16. *)
Theorem url_verify_counted_twice (parse_url : string -> option UrlParts) (url : string) :
  Str.includes (Str.to_lower url) "verify" = true ->
  count_occ string_dec (suspiciousKeywords (extractUrlFeatures parse_url url)) "verify" = 2%nat /\
  hasSuspiciousKeywords (extractUrlFeatures parse_url url) = true /\
  16 <= fst (calculateRiskScore (extractUrlFeatures parse_url url)).
Proof.
  intros Hv.
  destruct (extractUrlFeatures_keywords parse_url url) as [Hk Hh].
  assert (Hc : count_occ string_dec (suspiciousKeywords (extractUrlFeatures parse_url url)) "verify"
               = 2%nat) by (rewrite Hk, count_occ_filter, Hv; reflexivity).
  assert (Hl : (2 <= List.length (suspiciousKeywords (extractUrlFeatures parse_url url)))%nat)
    by (rewrite <- Hc; apply count_occ_le_length).
  assert (Ht : hasSuspiciousKeywords (extractUrlFeatures parse_url url) = true)
    by (apply Hh; rewrite <- Hk; lia).
  split; [exact Hc | split; [exact Ht|]].
  rewrite calculateRiskScore_steps. unfold run_risk.
  pose proof (run_risk_fired (risk_steps (extractUrlFeatures parse_url url)) (0, [])
    (qmin 25 (nat_Q (List.length (suspiciousKeywords (extractUrlFeatures parse_url url))) * 8))
    ("Phishing keywords detected: "
       ++ String.concat ", " (firstn 3 (suspiciousKeywords (extractUrlFeatures parse_url url))))
    (risk_steps_nonneg _)) as Hf.
  assert (Hin : In (hasSuspiciousKeywords (extractUrlFeatures parse_url url),
    qmin 25 (nat_Q (List.length (suspiciousKeywords (extractUrlFeatures parse_url url))) * 8),
    "Phishing keywords detected: "
       ++ String.concat ", " (firstn 3 (suspiciousKeywords (extractUrlFeatures parse_url url))))
    (risk_steps (extractUrlFeatures parse_url url)))
    by (unfold risk_steps; cbn [In]; tauto).
  rewrite Ht in Hin. specialize (Hf Hin). cbn [fst] in Hf.
  assert (Hq : 16 <= qmin 25 (nat_Q (List.length (suspiciousKeywords (extractUrlFeatures parse_url url))) * 8)).
  { pose proof (nat_Q_ge 2 _ Hl) as H2. change (nat_Q 2) with (2 # 1) in H2.
    unfold qmin. destruct (Qle_bool 25 _); lra. }
  revert Hf Hq.
  generalize (fold_left (fun st '(c, p, t) => risk_add c p t st) (risk_steps (extractUrlFeatures parse_url url)) (0, [])).
  intros [s ts] Hf Hq. cbn [fst] in Hf |- *. unfold qmin.
  destruct (Qle_bool 100 s) eqn:E; [lra|]. lra.
Qed.

Lemma url_verify_counted_twice_witness :
  Str.includes (Str.to_lower "https://example.com/Verify-Session") "verify" = true /\
  count_occ string_dec (suspiciousKeywords (extractUrlFeatures Parsers.whatwg_lite
    "https://example.com/Verify-Session")) "verify" = 2%nat /\
  hasSuspiciousKeywords (extractUrlFeatures Parsers.whatwg_lite "https://example.com/Verify-Session") = true /\
  16 <= fst (calculateRiskScore (extractUrlFeatures Parsers.whatwg_lite "https://example.com/Verify-Session")).
Proof.
  split; [vm_compute; reflexivity|].
  apply url_verify_counted_twice. vm_compute. reflexivity.
Defined.

Lemma entropy_prod_ge_1 (counts : list nat) (acc : Z) :
  (1 <= acc)%Z ->
  (1 <= fold_left (fun acc c => (acc * Z.of_nat c ^ (2 * Z.of_nat c))%Z) counts acc)%Z.
Proof.
  revert acc. induction counts as [|c counts IH]; intros acc Ha; cbn [fold_left]; [exact Ha|].
  apply IH.
  assert (Hp : (1 <= Z.of_nat c ^ (2 * Z.of_nat c))%Z).
  { destruct c as [|c]; [reflexivity|].
    assert (0 < Z.of_nat (S c) ^ (2 * Z.of_nat (S c)))%Z by (apply Z.pow_pos_nonneg; lia).
    lia. }
  nia.
Qed.

(** X22: the high-entropy rule never fires for a URL of at most 22
    characters: its entropy is at most log2 22, below 4.5. *)
Theorem entropy_rule_short_url (url : string) :
  (String.length url <= 22)%nat -> entropy_gt_4_5 (calculateEntropy url) = false.
Proof.
  intros Hl. unfold entropy_gt_4_5, calculateEntropy. cbn [ent_length ent_counts].
  pose proof (entropy_prod_ge_1 (map snd (fold_left (fun f c => bump c f) (Str.chars url) [])) 1
                (Z.le_refl 1)) as Hp.
  revert Hp.
  generalize (fold_left (fun acc c => (acc * Z.of_nat c ^ (2 * Z.of_nat c))%Z)
                (map snd (fold_left (fun f c => bump c f) (Str.chars url) [])) 1%Z).
  intros prod Hp. apply Z.ltb_ge.
  assert (HL : (0 <= Z.of_nat (String.length url) <= 22)%Z) by lia.
  generalize dependent (Z.of_nat (String.length url)). intros L HL.
  assert (H1 : (L ^ (2 * L) <= 2 ^ (9 * L))%Z).
  { rewrite !Z.pow_mul_r by lia.
    apply Z.pow_le_mono_l. split; [nia|]. change (2 ^ 9)%Z with 512%Z. nia. }
  assert (H2 : (0 < 2 ^ (9 * L))%Z) by (apply Z.pow_pos_nonneg; lia).
  nia.
Qed.

Lemma entropy_rule_short_url_witness :
  (String.length "http://q8z.x7k.io/qz9" <= 22)%nat /\
  entropy_gt_4_5 (calculateEntropy "http://q8z.x7k.io/qz9") = false.
Proof.
  assert (H : (String.length "http://q8z.x7k.io/qz9" <= 22)%nat) by (cbn; lia).
  split; [exact H | apply entropy_rule_short_url; exact H].
Defined.

Lemma count_consonant_le_letter (s : string) :
  (Str.count is_consonant s <= Str.count Str.is_letter s)%nat.
Proof.
  unfold Str.count. induction (Str.chars s) as [|c l IH]; cbn; [lia|].
  unfold is_consonant at 1. destruct (Str.is_letter c); cbn; [destruct (negb _); cbn|]; lia.
Qed.

(** X23: the consonant ratio of the URL features lies between 0 and 1. *)
Theorem consonantRatio_bounds (parse_url : string -> option UrlParts) (url : string) :
  0 <= consonantRatio (extractUrlFeatures parse_url url) <= 1.
Proof.
  assert (Hg : forall s, 0 <= calculateConsonantRatio s <= 1).
  { intros s. unfold calculateConsonantRatio. cbv zeta.
    pose proof (count_consonant_le_letter s) as Hle.
    destruct (0 <? Str.count Str.is_letter s)%nat eqn:E; [|split; apply Qle_refl || discriminate].
    apply Nat.ltb_lt in E.
    assert (Hd : 0 < inject_Z (Z.of_nat (Str.count Str.is_letter s)))
      by (change 0 with (inject_Z 0); rewrite <- Zlt_Qlt; lia).
    assert (Hn : 0 <= inject_Z (Z.of_nat (Str.count is_consonant s)))
      by (change 0 with (inject_Z 0); rewrite <- Zle_Qle; lia).
    assert (Hnd : inject_Z (Z.of_nat (Str.count is_consonant s)) <=
                  inject_Z (Z.of_nat (Str.count Str.is_letter s)))
      by (rewrite <- Zle_Qle; lia).
    split.
    - apply Qle_shift_div_l; [exact Hd | lra].
    - apply Qle_shift_div_r; [exact Hd | lra]. }
  unfold extractUrlFeatures. cbv zeta. destruct (parse_url _); apply Hg.
Qed.

Lemma logo_image_url_throws (w : json) :
  Js.truthy w = true -> (forall s, w <> JStr s) -> logo_image_url (Some w) = Throw "TypeError".
Proof.
  intros Ht Hn. destruct w; try (exfalso; eapply Hn; reflexivity); cbn [logo_image_url];
    rewrite Ht; reflexivity.
Qed.

Lemma logo_image_url_ok (v : option json) :
  (forall w, v = Some w -> Js.truthy w = true -> exists s, w = JStr s) ->
  exists u, logo_image_url v = Ret u.
Proof.
  intros H. destruct v as [w|]; [|eexists; reflexivity].
  destruct w; try (eexists; reflexivity); cbn [logo_image_url];
    destruct (Js.truthy _) eqn:E; try (eexists; reflexivity);
    destruct (H _ eq_refl E); discriminate.
Qed.

(** X24: for a request body other than [null], the logo handler answers 400
    when both [imageUrl] and [base64Image] are missing or falsy; it answers 500
    with a [TypeError] when [imageUrl] is truthy but not a string; otherwise
    it returns a result whose verdict is [safe], [unknown] or [phishing] and
    whose confidence is an integer between 8 and 95. *)
Theorem logo_serve_cases (parse_url : string -> option UrlParts) (b : json) (env : Env) :
  b <> JNull ->
  ((Js.truthy_opt (Js.field b "imageUrl") || Js.truthy_opt (Js.field b "base64Image")) = false ->
   logo_serve parse_url (Some b) env = RError 400 "Image URL or base64 image is required") /\
  (forall w, Js.field b "imageUrl" = Some w -> Js.truthy w = true -> (forall s, w <> JStr s) ->
   logo_serve parse_url (Some b) env = RError 500 "TypeError") /\
  ((Js.truthy_opt (Js.field b "imageUrl") || Js.truthy_opt (Js.field b "base64Image")) = true ->
   (forall w, Js.field b "imageUrl" = Some w -> Js.truthy w = true -> exists s, w = JStr s) ->
   exists r z, logo_serve parse_url (Some b) env = ROk r /\
     (r_result r = "safe" \/ r_result r = "unknown" \/ r_result r = "phishing") /\
     r_confidence r = JFin (inject_Z z) /\ (8 <= z <= 95)%Z).
Proof.
  intros Hb.
  destruct b as [| | | | |l]; try (exfalso; apply Hb; reflexivity);
    try (split; [intros _; reflexivity | split; [intros w Hw; discriminate | intros H; discriminate]]).
  unfold logo_serve, catch_500. cbv zeta.
  split; [|split].
  - intros H. rewrite H. reflexivity.
  - intros w Hw Ht Hn. rewrite Hw. cbn [Js.truthy_opt]. rewrite Ht. cbn [orb negb].
    rewrite (logo_image_url_throws w Ht Hn). reflexivity.
  - intros H Hstr. rewrite H. cbn [negb].
    destruct (logo_image_url_ok _ Hstr) as [u ->]. cbn [bind].
    set (input := {| imageUrl := u; base64Image := Js.field (JObj l) "base64Image" |}).
    eexists; exists (probability (calcLogoHeuristic parse_url input)). split; [reflexivity|].
    cbn [r_result r_confidence]. split; [|split; [reflexivity|]];
      destruct (logo_verdict_cases parse_url input) as [[H1 H2]|[[H1 H2]|[H1 H2]]];
      rewrite ?H1; try rewrite H2; (tauto || lia).
Qed.

Lemma logo_serve_cases_witness :
  logo_serve Parsers.whatwg_lite (Some (JObj [("imageUrl", JNum 5)])) oracle_down
    = RError 500 "TypeError" /\
  logo_serve Parsers.whatwg_lite (Some (JObj [("imageUrl", JBool false)])) oracle_down
    = RError 400 "Image URL or base64 image is required".
Proof.
  split.
  - destruct (logo_serve_cases Parsers.whatwg_lite (JObj [("imageUrl", JNum 5)]) oracle_down)
      as [_ [H _]]; [discriminate|].
    apply (H (JNum 5)); [reflexivity | vm_compute; reflexivity | discriminate].
  - destruct (logo_serve_cases Parsers.whatwg_lite (JObj [("imageUrl", JBool false)]) oracle_down)
      as [H _]; [discriminate|].
    apply H. vm_compute. reflexivity.
Defined.
